(** * swagger-ui-firebase-auth: generation-time functions and the
      token-refresh coordinator of the generated browser script.

    The development follows [src/index.js].  It has two layers:

    - the Node-side generator ([buildSignInOptions],
      [generateSignInOptionsCode], [generatePluginScript],
      [createSwaggerFirebaseAuth]);
    - the browser-side script that the generator emits (the template
      literal of [generatePluginScript]): [parseJwt], [updateSwaggerAuth],
      [setupRefreshTimer], [clearRefreshTimer] and the [onIdTokenChanged]
      handler, run by the browser's event loop.

    JavaScript numbers are modelled by [Z] (integral values, no NaN inside
    JSON data); a NaN produced by arithmetic is [None] in [option Z]. *)

From Stdlib Require Import ZArith List String Ascii Bool Lia.
From stdpp Require Import gmap strings.
Import ListNotations.

Set Warnings "-register-all".

Open Scope string_scope.
Open Scope list_scope.

(** ** JavaScript values *)

Inductive jsval : Type :=
| JUndefined
| JNull
| JBool (b : bool)
| JNum (n : Z)
| JStr (s : string)
| JArr (items : list jsval)
| JObj (fields : list (string * jsval)).

(** [!!v] of JavaScript. *)
Definition truthy (v : jsval) : bool :=
  match v with
  | JUndefined | JNull => false
  | JBool b => b
  | JNum n => negb (Z.eqb n 0)
  | JStr s => negb (String.eqb s "")
  | JArr _ | JObj _ => true
  end.

(** [typeof v === 'object'] (which holds of [null] and of arrays too). *)
Definition typeof_object (v : jsval) : bool :=
  match v with
  | JNull | JArr _ | JObj _ => true
  | _ => false
  end.

Fixpoint field (k : string) (fields : list (string * jsval)) : jsval :=
  match fields with
  | [] => JUndefined
  | (k', v) :: rest => if String.eqb k k' then v else field k rest
  end.

(** [v.k] where it is read: none of the primitives has an own or
    inherited property of the names read here ([apiKey], [exp], [code]);
    [apiKey] and [exp] are read behind a truthiness test of [v]. *)
Definition get_prop (v : jsval) (k : string) : jsval :=
  match v with
  | JObj fields => field k fields
  | _ => JUndefined
  end.

(** ** Constants of the module *)

Definition FIREBASE_SDK_VERSION : string := "12.7.0".
Definition FIREBASE_UI_VERSION : string := "6.1.0".

Definition FIREBASE_JS_URLS : list string :=
  [ "https://www.gstatic.com/firebasejs/" +:+ FIREBASE_SDK_VERSION +:+ "/firebase-app-compat.js";
    "https://www.gstatic.com/firebasejs/" +:+ FIREBASE_SDK_VERSION +:+ "/firebase-auth-compat.js";
    "https://www.gstatic.com/firebasejs/ui/" +:+ FIREBASE_UI_VERSION +:+ "/firebase-ui-auth.js" ].

Definition FIREBASE_CSS_URL : string :=
  "https://www.gstatic.com/firebasejs/ui/" +:+ FIREBASE_UI_VERSION +:+ "/firebase-ui-auth.css".

(** The merged option object [opts = { ...DEFAULT_OPTIONS, ...options }].
    [authProviders] is whatever value the caller's key holds: the loop
    over it decides whether the generator throws. *)
Record Options : Type := mkOptions {
  authProviders : jsval;
  refreshBeforeExpiryMs : Z;
  signInFlow : string;
  securitySchemeName : string;
  tosUrl : option string;          (* [None] is [null] *)
  privacyPolicyUrl : option string (* [None] is [null] *)
}.

Definition DEFAULT_OPTIONS : Options :=
  {| authProviders := JArr [JStr "email"];
     refreshBeforeExpiryMs := 5 * 60 * 1000;
     signInFlow := "popup";
     securitySchemeName := "firebase";
     tosUrl := None;
     privacyPolicyUrl := None |}.

(** The caller's [options] object: every key is optional, [None] meaning
    that the key is not present.  The default argument [options = {}] is
    the record of [None]s.  The key [authProviders] may hold any value
    ([Some JUndefined] is [{ authProviders: undefined }], which the
    declared type [SwaggerFirebaseAuthOptions] admits): the spread copies
    it over the default.  The other keys are taken at their declared
    types: they are only spliced into the text of the script or tested
    for truth, which raises nothing. *)
Record UserOptions : Type := mkUserOptions {
  o_authProviders : option jsval;
  o_refreshBeforeExpiryMs : option Z;
  o_signInFlow : option string;
  o_securitySchemeName : option string;
  o_tosUrl : option (option string);
  o_privacyPolicyUrl : option (option string)
}.

Definition no_options : UserOptions :=
  mkUserOptions None None None None None None.

(** Object spread: a key of the right operand overrides the left one. *)
Definition spread (d : Options) (o : UserOptions) : Options :=
  {| authProviders := default (authProviders d) (o_authProviders o);
     refreshBeforeExpiryMs := default (refreshBeforeExpiryMs d) (o_refreshBeforeExpiryMs o);
     signInFlow := default (signInFlow d) (o_signInFlow o);
     securitySchemeName := default (securitySchemeName d) (o_securitySchemeName o);
     tosUrl := default (tosUrl d) (o_tosUrl o);
     privacyPolicyUrl := default (privacyPolicyUrl d) (o_privacyPolicyUrl o) |}.

(** ** Sign-in options *)

(** The [switch] of [buildSignInOptions]: the option pushed for a string
    provider, [None] on the [default] branch. *)
Definition buildSignInOption (provider : string) : option jsval :=
  if String.eqb provider "email" then
    Some (JObj [("provider", JStr "firebase.auth.EmailAuthProvider.PROVIDER_ID");
                ("requireDisplayName", JBool false)])
  else if String.eqb provider "google" then
    Some (JObj [("provider", JStr "firebase.auth.GoogleAuthProvider.PROVIDER_ID");
                ("customParameters", JObj [("prompt", JStr "select_account")])])
  else if String.eqb provider "apple" then
    Some (JStr "firebase.auth.OAuthProvider.PROVIDER_ID_APPLE")
  else if String.eqb provider "github" then
    Some (JStr "firebase.auth.GithubAuthProvider.PROVIDER_ID")
  else if String.eqb provider "microsoft" then
    Some (JStr "firebase.auth.OAuthProvider.PROVIDER_ID_MICROSOFT")
  else if String.eqb provider "twitter" then
    Some (JStr "firebase.auth.TwitterAuthProvider.PROVIDER_ID")
  else if String.eqb provider "facebook" then
    Some (JStr "firebase.auth.FacebookAuthProvider.PROVIDER_ID")
  else if String.eqb provider "phone" then
    Some (JObj [("provider", JStr "firebase.auth.PhoneAuthProvider.PROVIDER_ID");
                ("defaultCountry", JStr "US")])
  else if String.eqb provider "anonymous" then
    Some (JStr "firebaseui.auth.AnonymousAuthProvider.PROVIDER_ID")
  else None.

(** Result of [buildSignInOptions]: the array and the providers that
    [console.warn] reported as unknown. *)
Record BuiltOptions : Type := mkBuilt {
  signInOptions : list jsval;
  warned : list jsval
}.

Definition push {A : Type} (arr : list A) (x : A) : list A := arr ++ [x].

(** One iteration of the [for ... of] loop of [buildSignInOptions]. *)
Definition buildSignInOptions_iter (acc : BuiltOptions) (provider : jsval) : BuiltOptions :=
  if typeof_object provider then
    mkBuilt (push (signInOptions acc) provider) (warned acc)
  else
    match provider with
    | JStr s =>
        match buildSignInOption s with
        | Some option => mkBuilt (push (signInOptions acc) option) (warned acc)
        | None => mkBuilt (signInOptions acc) (push (warned acc) provider)
        end
    | _ => mkBuilt (signInOptions acc) (push (warned acc) provider)
    end.

Definition buildSignInOptions (providers : list jsval) : BuiltOptions :=
  fold_left buildSignInOptions_iter providers (mkBuilt [] []).

Definition nl : string := String (ascii_of_nat 10) EmptyString.

(** The [switch] of [generateSignInOptionsCode]: the code fragment pushed
    for a string provider; the switch has no [default] branch. *)
Definition signInOptionCode (provider : string) : option string :=
  if String.eqb provider "email" then
    Some ("{" +:+ nl +:+
          "            provider: firebase.auth.EmailAuthProvider.PROVIDER_ID," +:+ nl +:+
          "            requireDisplayName: false," +:+ nl +:+
          "          }")
  else if String.eqb provider "google" then
    Some ("{" +:+ nl +:+
          "            provider: firebase.auth.GoogleAuthProvider.PROVIDER_ID," +:+ nl +:+
          "            customParameters: { prompt: 'select_account' }," +:+ nl +:+
          "          }")
  else if String.eqb provider "apple" then
    Some ("{" +:+ nl +:+
          "            provider: 'apple.com'," +:+ nl +:+
          "            providerName: 'Apple'," +:+ nl +:+
          "          }")
  else if String.eqb provider "github" then
    Some "firebase.auth.GithubAuthProvider.PROVIDER_ID"
  else if String.eqb provider "microsoft" then
    Some ("{" +:+ nl +:+
          "            provider: 'microsoft.com'," +:+ nl +:+
          "            providerName: 'Microsoft'," +:+ nl +:+
          "          }")
  else if String.eqb provider "twitter" then
    Some "firebase.auth.TwitterAuthProvider.PROVIDER_ID"
  else if String.eqb provider "facebook" then
    Some "firebase.auth.FacebookAuthProvider.PROVIDER_ID"
  else if String.eqb provider "phone" then
    Some ("{" +:+ nl +:+
          "            provider: firebase.auth.PhoneAuthProvider.PROVIDER_ID," +:+ nl +:+
          "            defaultCountry: 'US'," +:+ nl +:+
          "          }")
  else if String.eqb provider "anonymous" then
    Some "firebaseui.auth.AnonymousAuthProvider.PROVIDER_ID"
  else None.

(** The values that [for (const x of v)] iterates over: the members of
    an array, the characters of a string (one-character strings); [None]
    for a value that is not iterable ([undefined], [null], a boolean, a
    number, a plain object), on which the statement throws a TypeError. *)
Definition for_of (v : jsval) : option (list jsval) :=
  match v with
  | JArr items => Some items
  | JStr s => Some (map (fun c => JStr (String c EmptyString)) (list_ascii_of_string s))
  | _ => None
  end.

Definition join (sep : string) (parts : list string) : string :=
  String.concat sep parts.

Definition truthy_url (u : option string) : bool :=
  match u with
  | Some s => negb (String.eqb s "")
  | None => false
  end.

(** The generated script is the fixed template text of
    [generatePluginScript] with four holes; it is represented by the
    values spliced into them. *)
Record PluginScript : Type := mkScript {
  script_firebaseConfigJson : string;
  script_firebaseUiConfig : string;
  script_securitySchemeName : string;
  script_refreshBeforeExpiryMs : Z
}.

Inductive js_error : Type :=
| Error (message : string)
| TypeError_not_iterable.

Record SwaggerFirebaseAuthResult : Type := mkResult {
  customJs : list string;
  customCssUrl : string;
  initScript : PluginScript
}.

Section Generator.

(** [JSON.stringify] of the host, on the values it is applied to here
    (objects, arrays and [null]). *)
Variable JSON_stringify : jsval -> string.

(** One iteration of the loop of [generateSignInOptionsCode]. *)
Definition signInOptionsCode_iter (options : list string) (provider : jsval) : list string :=
  if typeof_object provider then push options (JSON_stringify provider)
  else
    match provider with
    | JStr s =>
        match signInOptionCode s with
        | Some code => push options code
        | None => options
        end
    | _ => options
    end.

(** The array [options] of [generateSignInOptionsCode] when the loop ends,
    [providers] being the values the loop iterates over. *)
Definition signInOptionsCodeList (providers : list jsval) : list string :=
  fold_left signInOptionsCode_iter providers [].

(** [generateSignInOptionsCode], given the values that its loop iterates
    over ([for_of] of its argument; see [generatePluginScript]). *)
Definition generateSignInOptionsCode (providers : list jsval) : string :=
  join ("," +:+ nl +:+ "                  ") (signInOptionsCodeList providers).

(** The text of [firebaseUiConfig], built from [opts] and from the local
    [signInOptionsCode]. *)
Definition firebaseUiConfig (opts : Options) (signInOptionsCode : string) : string :=
  let base :=
    "{" +:+ nl +:+
    "                signInFlow: '" +:+ signInFlow opts +:+ "'," +:+ nl +:+
    "                signInOptions: [" +:+ nl +:+
    "                  " +:+ signInOptionsCode +:+ nl +:+
    "                ]," +:+ nl +:+
    "                callbacks: {" +:+ nl +:+
    "                  signInSuccessWithAuthResult: () => {" +:+ nl +:+
    "                    close();" +:+ nl +:+
    "                    return false;" +:+ nl +:+
    "                  }," +:+ nl +:+
    "                }," in
  let with_tos :=
    if truthy_url (tosUrl opts)
    then base +:+ nl +:+ "                tosUrl: '" +:+ default "" (tosUrl opts) +:+ "',"
    else base in
  let with_privacy :=
    if truthy_url (privacyPolicyUrl opts)
    then with_tos +:+ nl +:+ "                privacyPolicyUrl: '" +:+ default "" (privacyPolicyUrl opts) +:+ "',"
    else with_tos in
  with_privacy +:+ nl +:+ "              }".

(** [inl e] is [throw e]: the call of [generateSignInOptionsCode] throws
    when [opts.authProviders] is not iterable, before anything is built. *)
Definition generatePluginScript (firebaseConfig : jsval) (options : UserOptions)
  : js_error + PluginScript :=
  let opts := spread DEFAULT_OPTIONS options in
  match for_of (authProviders opts) with
  | None => inl TypeError_not_iterable
  | Some providers =>
      let signInOptionsCode := generateSignInOptionsCode providers in
      inr {| script_firebaseConfigJson := JSON_stringify firebaseConfig;
             script_firebaseUiConfig := firebaseUiConfig opts signInOptionsCode;
             script_securitySchemeName := securitySchemeName opts;
             script_refreshBeforeExpiryMs := refreshBeforeExpiryMs opts |}
  end.

(** [inl e] is [throw e]; [inr r] is [return r]. *)
Definition createSwaggerFirebaseAuth (firebaseConfig : jsval) (options : UserOptions)
  : js_error + SwaggerFirebaseAuthResult :=
  if negb (truthy firebaseConfig) || negb (truthy (get_prop firebaseConfig "apiKey")) then
    inl (Error "Firebase config with apiKey is required")
  else
    match generatePluginScript firebaseConfig options with
    | inl e => inl e
    | inr script =>
        inr {| customJs := FIREBASE_JS_URLS;
               customCssUrl := FIREBASE_CSS_URL;
               initScript := script |}
    end.

End Generator.

(** ** The generated script: token-refresh coordinator *)

(** [s.split(c)] for a one-character separator. *)
Fixpoint split_on (c : ascii) (s : string) : list string :=
  match s with
  | EmptyString => [EmptyString]
  | String a rest =>
      if Ascii.eqb a c then EmptyString :: split_on c rest
      else match split_on c rest with
           | w :: ws => String a w :: ws
           | [] => [String a EmptyString]
           end
  end.

(** [s.replace(/c/g, d)] for single characters. *)
Fixpoint replace_all (c d : ascii) (s : string) : string :=
  match s with
  | EmptyString => EmptyString
  | String a rest => String (if Ascii.eqb a c then d else a) (replace_all c d rest)
  end.

(** A Firebase user handle. *)
Definition user : Type := nat.

(** The [console] calls of the script, one constructor per call site. *)
Inductive log_entry : Type :=
| ErrParseJwt                      (* error: Failed to parse JWT *)
| WarnNoExpiration                 (* warn: Could not parse JWT expiration *)
| LogScheduled (delay : Z)         (* log: Token refresh scheduled in .. minutes *)
| LogRefreshed                     (* log: Token refreshed successfully *)
| ErrRefreshFailed (e : jsval)     (* error: Token refresh failed *)
| LogSessionExpired                (* log: Session expired, signing out *)
| LogImmediate                     (* log: Token expired or expiring soon, refreshing immediately *)
| ErrImmediateFailed (e : jsval)   (* error: Immediate token refresh failed *)
| ErrSchedulingFetchFailed (e : jsval) (* error: Failed to get token for refresh scheduling *)
| LogTokenUpdated                  (* log: Token updated via onIdTokenChanged *)
| LogTimerCleared.                 (* log: Token refresh timer cleared *)

Record auth_schema : Type := mkSchema {
  schema_type : string;
  schema_in : string;
  schema_name : string
}.

Record auth_entry : Type := mkEntry {
  entry_name : string;
  entry_schema : auth_schema;
  entry_value : string
}.

(** Calls made on Swagger UI's [authActions] and on [firebase.auth()]. *)
Inductive call : Type :=
| LogoutWithPersistOption (names : list string)
| AuthorizeWithPersistOption (key : string) (entry : auth_entry)
| ShowDefinitions_false
| SignOut.

(** A pending promise of [user.getIdToken], tagged with the continuation
    that is attached to it. *)
Inductive task : Type :=
| InitFetch (u : user)        (* onIdTokenChanged: user.getIdToken().then(..) *)
| ArmFetch (u : user)         (* setupRefreshTimer: user.getIdToken().then(..).catch(..) *)
| TimerForced (u : user)      (* timer callback: await user.getIdToken(true) *)
| ImmediateForced (u : user). (* immediate path: user.getIdToken(true).then(..).catch(..) *)

(** A pending [setTimeout] timer: its delay and the user its callback closes over. *)
Record timer : Type := mkTimer {
  timer_delay : Z;
  timer_user : user
}.

(** State of the page: the script's variable [refreshTimerId], the
    browser's pending timers and promises, Swagger UI's authorization store
    (the Authorization Projection), and the observable calls. *)
Record state : Type := mkState {
  refreshTimerId : option positive;
  timers : gmap positive timer;
  nextTimer : positive;
  promises : gmap positive task;
  nextPromise : positive;
  subscribed : bool;
  authorized : gmap string auth_entry;
  calls : list call;
  console : list log_entry
}.

(** The page when the script has been loaded and the component mounted:
    the listener is subscribed, nothing is pending.  The store is taken
    empty here; the real store may already hold entries of other schemes
    (the script itself authorizes what [preauthorizeApiKey] and
    [authAction] name), which is why the properties of the store below are
    stated from an arbitrary state and not from this one. *)
Definition initial : state :=
  {| refreshTimerId := None; timers := ∅; nextTimer := 1%positive;
     promises := ∅; nextPromise := 1%positive; subscribed := true;
     authorized := ∅; calls := []; console := [] |}.

Definition set_refreshTimerId (v : option positive) (st : state) : state :=
  mkState v (timers st) (nextTimer st) (promises st) (nextPromise st)
          (subscribed st) (authorized st) (calls st) (console st).

Definition console_log (m : log_entry) (st : state) : state :=
  mkState (refreshTimerId st) (timers st) (nextTimer st) (promises st) (nextPromise st)
          (subscribed st) (authorized st) (calls st) (push (console st) m).

(** [clearTimeout(t)]: cancels [t] if it is pending, else does nothing. *)
Definition clearTimeout (t : positive) (st : state) : state :=
  mkState (refreshTimerId st) (delete t (timers st)) (nextTimer st) (promises st)
          (nextPromise st) (subscribed st) (authorized st) (calls st) (console st).

(** [setTimeout(callback, delay)]: a fresh positive handle. *)
Definition setTimeout (u : user) (delay : Z) (st : state) : positive * state :=
  (nextTimer st,
   mkState (refreshTimerId st) (<[nextTimer st := mkTimer delay u]> (timers st))
           (Pos.succ (nextTimer st)) (promises st) (nextPromise st)
           (subscribed st) (authorized st) (calls st) (console st)).

(** [user.getIdToken(..)] with the continuation [k] attached. *)
Definition getIdToken (k : task) (st : state) : state :=
  mkState (refreshTimerId st) (timers st) (nextTimer st)
          (<[nextPromise st := k]> (promises st)) (Pos.succ (nextPromise st))
          (subscribed st) (authorized st) (calls st) (console st).

(** The promise [p] is settled and leaves the pending set. *)
Definition settle (p : positive) (st : state) : state :=
  mkState (refreshTimerId st) (timers st) (nextTimer st)
          (delete p (promises st)) (nextPromise st)
          (subscribed st) (authorized st) (calls st) (console st).

(** [authActions.logoutWithPersistOption(names)]: the store forgets [names]. *)
Definition logoutWithPersistOption (names : list string) (st : state) : state :=
  mkState (refreshTimerId st) (timers st) (nextTimer st) (promises st) (nextPromise st)
          (subscribed st) (foldr delete (authorized st) names)
          (push (calls st) (LogoutWithPersistOption names)) (console st).

(** [authActions.authorizeWithPersistOption({ key: entry })]. *)
Definition authorizeWithPersistOption (key : string) (entry : auth_entry) (st : state) : state :=
  mkState (refreshTimerId st) (timers st) (nextTimer st) (promises st) (nextPromise st)
          (subscribed st) (<[key := entry]> (authorized st))
          (push (calls st) (AuthorizeWithPersistOption key entry)) (console st).

Definition record_call (c : call) (st : state) : state :=
  mkState (refreshTimerId st) (timers st) (nextTimer st) (promises st) (nextPromise st)
          (subscribed st) (authorized st) (push (calls st) c) (console st).

Definition unsubscribe (st : state) : state :=
  mkState (refreshTimerId st) (timers st) (nextTimer st) (promises st) (nextPromise st)
          false (authorized st) (calls st) (console st).

(** [v === c] for a string literal [c]. *)
Definition strict_eq_string (v : jsval) (c : string) : bool :=
  match v with
  | JStr s => String.eqb s c
  | _ => false
  end.

(** The turns of the token-refresh coordinator, as the browser's event
    loop delivers them.  The other turns of the script (the polling of
    [swaggerUi.preauthorizeApiKey], [authActions.authorize(authAction)],
    a new mount of the component, which subscribes a new listener) are not
    among them: a property stated for every event speaks of the
    coordinator's turns only. *)
Inductive event : Type :=
| IdTokenChanged (u : option user)                 (* the onIdTokenChanged listener is called *)
| TokenResolved (p : positive) (token : string) (now : Z)
    (* promise [p] fulfils with [token]; [now] is what Date.now() returns
       while its continuation runs *)
| TokenRejected (p : positive) (e : jsval)         (* promise [p] rejects with reason [e] *)
| TimerFired (t : positive)                        (* the pending timer [t] fires *)
| LogoutClicked                                    (* the popup's Logout button *)
| Unmounted.                                       (* the effect's cleanup runs *)

Section Coordinator.

(** The two values the generator splices into the script
    ([script_securitySchemeName], an identifier, and
    [script_refreshBeforeExpiryMs]). *)
Variable schemeName : string.
Variable refreshBeforeMs : Z.

(** Host functions: [JSON.parse(decodeURIComponent(.. atob(base64) ..))],
    [None] when one of them throws; and the number an operand of [*] that
    is not a number converts to ([None] is NaN). *)
Variable host_decode : string -> option jsval.
Variable ToNumber : jsval -> option Z.

(** The [try] block of [parseJwt]; [None] when it throws (a token
    without a second segment makes [base64Url] undefined, and
    [undefined.replace] is a TypeError). *)
Definition parseJwt_try (token : string) : option jsval :=
  match nth_error (split_on "." token) 1 with
  | None => None
  | Some base64Url =>
      let base64 := replace_all "_" "/" (replace_all "-" "+" base64Url) in
      host_decode base64
  end.

Definition parseJwt (token : string) (st : state) : jsval * state :=
  match parseJwt_try token with
  | Some payload => (payload, st)
  | None => (JNull, console_log ErrParseJwt st)
  end.

Definition bearer_entry (token : string) : auth_entry :=
  {| entry_name := schemeName;
     entry_schema := {| schema_type := "apiKey"; schema_in := "header";
                        schema_name := "authorization" |};
     entry_value := "Bearer " +:+ token |}.

Definition updateSwaggerAuth (token : string) (st : state) : state :=
  authorizeWithPersistOption schemeName (bearer_entry token)
    (logoutWithPersistOption [schemeName] st).

(** The synchronous part of [setupRefreshTimer]: cancel the stored handle,
    then start fetching the token. *)
Definition setupRefreshTimer (u : user) (st : state) : state :=
  let st1 :=
    match refreshTimerId st with
    | Some t => set_refreshTimerId None (clearTimeout t st)
    | None => st
    end in
  getIdToken (ArmFetch u) st1.

(** [decoded.exp * 1000]. *)
Definition expiresAt (decoded : jsval) : option Z :=
  match get_prop decoded "exp" with
  | JNum exp => Some (exp * 1000)%Z
  | other => (fun n => n * 1000)%Z <$> ToNumber other
  end.

(** [delay = expiresAt - refreshBeforeExpiryMs - now]. *)
Definition refreshDelay (decoded : jsval) (now : Z) : option Z :=
  (fun e => e - refreshBeforeMs - now)%Z <$> expiresAt decoded.

(** The continuation [.then((token) => ..)] of [setupRefreshTimer]. *)
Definition setupRefreshTimer_then (u : user) (token : string) (now : Z) (st : state) : state :=
  let '(decoded, st1) := parseJwt token st in
  if negb (truthy decoded) || negb (truthy (get_prop decoded "exp")) then
    console_log WarnNoExpiration st1
  else
    match refreshDelay decoded now with
    | Some delay =>
        if (0 <? delay)%Z then
          let '(id, st2) := setTimeout u delay (console_log (LogScheduled delay) st1) in
          set_refreshTimerId (Some id) st2
        else
          getIdToken (ImmediateForced u) (console_log LogImmediate st1)
    | None =>
        getIdToken (ImmediateForced u) (console_log LogImmediate st1)
    end.

Definition clearRefreshTimer (st : state) : state :=
  match refreshTimerId st with
  | Some t => console_log LogTimerCleared (set_refreshTimerId None (clearTimeout t st))
  | None => st
  end.

(** The listener passed to [auth.onIdTokenChanged]. *)
Definition onIdTokenChanged (u : option user) (st : state) : state :=
  match u with
  | Some u => getIdToken (InitFetch u) st
  | None => logoutWithPersistOption [schemeName] (clearRefreshTimer st)
  end.

(** Continuation run when a pending promise fulfils. *)
Definition on_fulfilled (k : task) (token : string) (now : Z) (st : state) : state :=
  match k with
  | InitFetch u =>
      setupRefreshTimer u (updateSwaggerAuth token (console_log LogTokenUpdated st))
  | ArmFetch u =>
      setupRefreshTimer_then u token now st
  | TimerForced u =>
      setupRefreshTimer u (updateSwaggerAuth token (console_log LogRefreshed st))
  | ImmediateForced u =>
      setupRefreshTimer u (updateSwaggerAuth token st)
  end.

(** Handler run when a pending promise rejects.  The handler's fetch has
    no rejection handler.  On the timer path, reading [e.code] of an
    [undefined] or [null] reason throws inside the [catch] block, after
    the error was logged and before any sign-out: the outcome is that of
    a reason without [code]. *)
Definition on_rejected (k : task) (e : jsval) (st : state) : state :=
  match k with
  | InitFetch _ => st
  | ArmFetch _ => console_log (ErrSchedulingFetchFailed e) st
  | TimerForced _ =>
      let st1 := console_log (ErrRefreshFailed e) st in
      if strict_eq_string (get_prop e "code") "auth/user-token-expired"
         || strict_eq_string (get_prop e "code") "auth/invalid-user-token"
      then record_call SignOut (console_log LogSessionExpired st1)
      else st1
  | ImmediateForced _ =>
      record_call SignOut (console_log (ErrImmediateFailed e) st)
  end.

(** The popup's [logout] function. *)
Definition logout (st : state) : state :=
  record_call ShowDefinitions_false
    (logoutWithPersistOption [schemeName]
       (record_call SignOut (clearRefreshTimer st))).

(** One turn of the event loop; [None] when the event cannot occur in [st]. *)
Definition step (st : state) (ev : event) : option state :=
  match ev with
  | IdTokenChanged u =>
      if subscribed st then Some (onIdTokenChanged u st) else None
  | TokenResolved p token now =>
      match promises st !! p with
      | Some k => Some (on_fulfilled k token now (settle p st))
      | None => None
      end
  | TokenRejected p e =>
      match promises st !! p with
      | Some k => Some (on_rejected k e (settle p st))
      | None => None
      end
  | TimerFired t =>
      match timers st !! t with
      | Some tm =>
          Some (getIdToken (TimerForced (timer_user tm))
                  (mkState (refreshTimerId st) (delete t (timers st)) (nextTimer st)
                     (promises st) (nextPromise st) (subscribed st)
                     (authorized st) (calls st) (console st)))
      | None => None
      end
  | LogoutClicked => Some (logout st)
  | Unmounted => Some (clearRefreshTimer (unsubscribe st))
  end.

Fixpoint run (st : state) (evs : list event) : option state :=
  match evs with
  | [] => Some st
  | ev :: rest =>
      match step st ev with
      | Some st' => run st' rest
      | None => None
      end
  end.

(** States the page can be in. *)
Inductive reachable : state -> Prop :=
| reachable_initial : reachable initial
| reachable_step st ev st' :
    reachable st -> step st ev = Some st' -> reachable st'.

End Coordinator.

(** ** Sample data for the worked examples *)

(** The host decoder at the payloads used below (base64 of [{"exp":3600}],
    [{"exp":7200}], [{"exp":0}] and [{"sub":"u"}]); no other payload is
    decoded below. *)
Definition sample_decode (base64 : string) : option jsval :=
  if String.eqb base64 "eyJleHAiOjM2MDB9" then Some (JObj [("exp", JNum 3600)])
  else if String.eqb base64 "eyJleHAiOjcyMDB9" then Some (JObj [("exp", JNum 7200)])
  else if String.eqb base64 "eyJleHAiOjB9" then Some (JObj [("exp", JNum 0)])
  else if String.eqb base64 "eyJzdWIiOiJ1In0=" then Some (JObj [("sub", JStr "u")])
  else None.

Definition sample_ToNumber (v : jsval) : option Z := None.

Definition token_exp_3600 : string := "h.eyJleHAiOjM2MDB9.s".
Definition token_exp_7200 : string := "h.eyJleHAiOjcyMDB9.s".
Definition token_exp_0 : string := "h.eyJleHAiOjB9.s".
Definition token_no_exp : string := "h.eyJzdWIiOiJ1In0=.s".

(** The page generated with the default options. *)
Definition default_run : state -> list event -> option state :=
  run (securitySchemeName DEFAULT_OPTIONS) (refreshBeforeExpiryMs DEFAULT_OPTIONS)
      sample_decode sample_ToNumber.

Definition default_step : state -> event -> option state :=
  step (securitySchemeName DEFAULT_OPTIONS) (refreshBeforeExpiryMs DEFAULT_OPTIONS)
       sample_decode sample_ToNumber.

(** The state that a trace leads to from the initial state. *)
Definition after (evs : list event) : state :=
  default initial (default_run initial evs).

(** Sign-in: the notification, then the token of the handler's fetch;
    the arming fetch (promise 2) is pending. *)
Definition signed_in_trace : list event :=
  [IdTokenChanged (Some 1%nat); TokenResolved 1 token_exp_3600 0].

(** Sign-in at a time when the token is inside the refresh window:
    the arming continuation takes the immediate path (promise 3). *)
Definition expiring_soon_trace : list event :=
  [IdTokenChanged (Some 1%nat); TokenResolved 1 token_exp_3600 3400000;
   TokenResolved 2 token_exp_3600 3400000].

(** Sign-in, timer armed (timer 1), timer fired (promise 3). *)
Definition timer_fired_trace : list event :=
  [IdTokenChanged (Some 1%nat); TokenResolved 1 token_exp_3600 0;
   TokenResolved 2 token_exp_3600 0; TimerFired 1].

(** A proactive refresh during which the identity provider also notifies
    the listener of the new token: the timer fires, the forced fetch
    (promise 3) is started, the listener is notified and fetches the token
    (promise 4); both continuations call [setupRefreshTimer] (promises 5
    and 6) before either arming fetch has completed. *)
Definition refresh_with_notification_trace : list event :=
  [IdTokenChanged (Some 1%nat); TokenResolved 1 token_exp_3600 0;
   TokenResolved 2 token_exp_3600 0; TimerFired 1;
   IdTokenChanged (Some 1%nat);
   TokenResolved 3 token_exp_7200 3300000; TokenResolved 4 token_exp_7200 3300000;
   TokenResolved 5 token_exp_7200 3300000; TokenResolved 6 token_exp_7200 3300000].

(** Two notifications in a row, then the four fetches in the order they
    were started. *)
Definition two_notifications_trace : list event :=
  [IdTokenChanged (Some 1%nat); IdTokenChanged (Some 1%nat);
   TokenResolved 1 token_exp_3600 0; TokenResolved 2 token_exp_3600 0;
   TokenResolved 3 token_exp_3600 0; TokenResolved 4 token_exp_3600 0].



(** Two notifications; the arming fetch of the first (promise 2) yields a
    token without expiry claim while the fetch of the second (promise 3)
    is in flight. *)
Definition abort_during_second_sign_in_trace : list event :=
  [IdTokenChanged (Some 1%nat); TokenResolved 1 token_exp_3600 0;
   IdTokenChanged (Some 1%nat); TokenResolved 2 token_no_exp 0].

Definition network_error : jsval :=
  JObj [("code", JStr "auth/network-request-failed")].

(** [JSON.stringify] at the values the examples serialise. *)
Definition sample_stringify (v : jsval) : string :=
  match v with
  | JObj [("provider", JStr "password")] => "{" +:+ String (ascii_of_nat 34) "provider" +:+
                                            String (ascii_of_nat 34) ":" +:+
                                            String (ascii_of_nat 34) "password" +:+
                                            String (ascii_of_nat 34) "}"
  | JNull => "null"
  | _ => "{}"
  end.

(** The provider names of the [AuthProvider] type of [index.d.ts]. *)
Definition known_providers : list string :=
  ["email"; "google"; "apple"; "github"; "microsoft"; "twitter"; "facebook";
   "phone"; "anonymous"].

(** A provider of type [AuthProvider]: a custom object or a known name. *)
Definition supported_provider (p : jsval) : bool :=
  typeof_object p
  || match p with
     | JStr s => existsb (String.eqb s) known_providers
     | _ => false
     end.

(** Handles at or above the next counter are not in use. *)
Definition handles_fresh (st : state) : Prop :=
  (forall t, (nextTimer st <= t)%positive -> timers st !! t = None)
  /\ (forall p, (nextPromise st <= p)%positive -> promises st !! p = None).

(** Events that the page raises by itself (timers and promises), as
    opposed to the identity provider's notifications and the user's
    actions. *)
Definition automatic (ev : event) : bool :=
  match ev with
  | TokenResolved _ _ _ | TokenRejected _ _ | TimerFired _ => true
  | IdTokenChanged _ | LogoutClicked | Unmounted => false
  end.

(** The failure reasons that [setupRefreshTimer]'s timer callback treats
    as an invalid session. *)
Definition session_invalid (e : jsval) : bool :=
  strict_eq_string (get_prop e "code") "auth/user-token-expired"
  || strict_eq_string (get_prop e "code") "auth/invalid-user-token".

(** ** Vocabulary of the further properties *)

(** [s] does not contain the character [c]. *)
Fixpoint no_char (c : ascii) (s : string) : bool :=
  match s with
  | EmptyString => true
  | String a rest => negb (Ascii.eqb a c) && no_char c rest
  end.

(** The base64url-to-base64 translation of [parseJwt]. *)
Definition to_base64 (base64Url : string) : string :=
  replace_all "_" "/" (replace_all "-" "+" base64Url).

(** A forced fetch ([getIdToken(true)]). *)
Definition forced (k : task) : bool :=
  match k with
  | TimerForced _ | ImmediateForced _ => true
  | InitFetch _ | ArmFetch _ => false
  end.

Definition is_arming (k : task) : bool :=
  match k with
  | ArmFetch _ => true
  | _ => false
  end.

(** Some arming fetch of [setupRefreshTimer] is in flight. *)
Definition arming_pending (st : state) : bool :=
  existsb (fun pk => is_arming (snd pk)) (map_to_list (promises st)).

(** The event runs a continuation that calls [setupRefreshTimer]. *)
Definition starts_arming (st : state) (ev : event) : bool :=
  match ev with
  | TokenResolved p _ _ =>
      match promises st !! p with
      | Some k => negb (is_arming k)
      | None => false
      end
  | _ => false
  end.

(** The events on which the script calls [firebase.auth().signOut()]. *)
Definition signs_out (st : state) (ev : event) : bool :=
  match ev with
  | LogoutClicked => true
  | TokenRejected p e =>
      match promises st !! p with
      | Some (TimerForced _) => session_invalid e
      | Some (ImmediateForced _) => true
      | _ => false
      end
  | _ => false
  end.

(** [n] rounds of: the arming fetch [p] resolves, the forced fetch it
    starts ([p + 1]) resolves; the next arming fetch is [p + 2]. *)
Fixpoint refresh_rounds (n : nat) (p : positive) (token : string) (now : Z) : list event :=
  match n with
  | O => []
  | S n' =>
      TokenResolved p token now
      :: TokenResolved (Pos.succ p) token now
      :: refresh_rounds n' (Pos.succ (Pos.succ p)) token now
  end.

(** The host decoder at the payload [{"exp":"soon"}]. *)
Definition sample_decode_text (base64 : string) : option jsval :=
  if String.eqb base64 "eyJleHAiOiJzb29uIn0=" then Some (JObj [("exp", JStr "soon")])
  else None.

Definition token_exp_text : string := "h.eyJleHAiOiJzb29uIn0=.s".

(** The stored handle is the only pending timer, at most one arming
    fetch is in flight, and no timer is pending while one is. *)
Definition arming_exclusive (st : state) : Prop :=
  (forall t tm, timers st !! t = Some tm -> refreshTimerId st = Some t)
  /\ (forall p q u v,
        promises st !! p = Some (ArmFetch u) ->
        promises st !! q = Some (ArmFetch v) -> p = q)
  /\ (forall p u, promises st !! p = Some (ArmFetch u) -> timers st = ∅).

(** In the run [evs] from [st], [setupRefreshTimer] is never called while
    an arming fetch is in flight. *)
Fixpoint arms_one_at_a_time (step : state -> event -> option state)
    (st : state) (evs : list event) : bool :=
  match evs with
  | [] => true
  | ev :: rest =>
      negb (starts_arming st ev && arming_pending st)
      && match step st ev with
         | Some st' => arms_one_at_a_time step st' rest
         | None => true
         end
  end.

(** The events that end a session or the component: the sign-out
    notification, the popup's Logout button, the effect's cleanup. *)
Definition ends_session (ev : event) : bool :=
  match ev with
  | IdTokenChanged None | LogoutClicked | Unmounted => true
  | _ => false
  end.

(** Sign-in until the first timer (handle 1) is pending. *)
Definition timer_armed_trace : list event :=
  [IdTokenChanged (Some 1%nat); TokenResolved 1 token_exp_3600 0;
   TokenResolved 2 token_exp_3600 0].

(** A proactive refresh without a concurrent notification: the timer
    fires, the forced fetch resolves, the arming fetch resolves. *)
Definition refresh_alone_trace : list event :=
  [IdTokenChanged (Some 1%nat); TokenResolved 1 token_exp_3600 0;
   TokenResolved 2 token_exp_3600 0; TimerFired 1;
   TokenResolved 3 token_exp_7200 3300000; TokenResolved 4 token_exp_7200 3300000].

(** A page whose store holds an entry of another scheme. *)
Definition other_scheme_state : state :=
  authorizeWithPersistOption "basic" (bearer_entry "basic" "x") initial.

(** The props that the wrapped [AuthorizeBtnContainer] passes to the
    Authorize button; [None] when it renders nothing.  [authorized] is
    [authSelectors.authorized()], so [isAuthorized] is [!!authorized.size]. *)
Record authorize_button : Type := mkButton {
  isAuthorized : bool;
  showPopup : bool
}.

Definition AuthorizeBtnContainer (securityDefinitions shownDefinitions : jsval) (st : state)
  : option authorize_button :=
  if truthy securityDefinitions then
    Some {| isAuthorized := negb (Nat.eqb (size (authorized st)) 0);
            showPopup := truthy shownDefinitions |}
  else None.


(** * Properties of the generator *)

Section GeneratorProperties.

Variable JSON_stringify : jsval -> string.

Lemma signInOptionsCode_iter_push options provider :
  signInOptionsCode_iter JSON_stringify options provider
  = options ++ signInOptionsCode_iter JSON_stringify [] provider.
Proof.
  unfold signInOptionsCode_iter, push.
  destruct (typeof_object provider); [reflexivity|].
  destruct provider; try (symmetry; apply app_nil_r).
  destruct (signInOptionCode s); [reflexivity | symmetry; apply app_nil_r].
Qed.

Lemma signInOptionsCodeList_from providers : forall options,
  fold_left (signInOptionsCode_iter JSON_stringify) providers options
  = options ++ signInOptionsCodeList JSON_stringify providers.
Proof.
  unfold signInOptionsCodeList.
  induction providers as [|p rest IH]; intros options; simpl.
  - symmetry; apply app_nil_r.
  - rewrite IH, (IH (signInOptionsCode_iter _ [] p)).
    rewrite (signInOptionsCode_iter_push options p).
    symmetry; apply app_assoc.
Qed.

Lemma signInOptionsCodeList_cons p rest :
  signInOptionsCodeList JSON_stringify (p :: rest)
  = signInOptionsCode_iter JSON_stringify [] p ++ signInOptionsCodeList JSON_stringify rest.
Proof.
  unfold signInOptionsCodeList at 1; simpl. apply signInOptionsCodeList_from.
Qed.

Lemma buildSignInOptions_from providers : forall acc,
  fold_left buildSignInOptions_iter providers acc
  = mkBuilt (signInOptions acc ++ signInOptions (buildSignInOptions providers))
            (warned acc ++ warned (buildSignInOptions providers)).
Proof.
  unfold buildSignInOptions.
  induction providers as [|p rest IH]; intros [opts ws]; simpl.
  - rewrite !app_nil_r; reflexivity.
  - rewrite IH, (IH (buildSignInOptions_iter _ p)).
    unfold buildSignInOptions_iter, push; simpl.
    destruct (typeof_object p); simpl.
    + rewrite <- !app_assoc; reflexivity.
    + destruct p; simpl; rewrite <- ?app_assoc; try reflexivity.
      destruct (buildSignInOption s); simpl; rewrite <- ?app_assoc; reflexivity.
Qed.

Lemma buildSignInOptions_cons p rest :
  buildSignInOptions (p :: rest)
  = mkBuilt (signInOptions (buildSignInOptions_iter (mkBuilt [] []) p)
               ++ signInOptions (buildSignInOptions rest))
            (warned (buildSignInOptions_iter (mkBuilt [] []) p)
               ++ warned (buildSignInOptions rest)).
Proof.
  unfold buildSignInOptions at 1; simpl. apply buildSignInOptions_from.
Qed.

Lemma known_provider_has_code s :
  existsb (String.eqb s) known_providers = true ->
  exists code, signInOptionCode s = Some code.
Proof.
  unfold known_providers, signInOptionCode; simpl.
  repeat (destruct (String.eqb s _); [eexists; reflexivity|]).
  discriminate.
Qed.

Lemma known_provider_has_option s :
  existsb (String.eqb s) known_providers = true ->
  exists o, buildSignInOption s = Some o.
Proof.
  unfold known_providers, buildSignInOption; simpl.
  repeat (destruct (String.eqb s _); [eexists; reflexivity|]).
  discriminate.
Qed.

(** C7 (as amended): for a provider list whose members are custom objects
    or known provider names, both sign-in option lists hold exactly one
    entry per provider, in input order: a custom object is passed through
    (serialised by [JSON.stringify] in the generated code, itself in
    [buildSignInOptions]) and a known name is mapped to its fixed entry;
    nothing is reported as unknown. *)
Theorem sign_in_options_one_entry_per_supported_provider (providers : list jsval) :
  forallb supported_provider providers = true ->
  Forall2 (fun p code =>
             if typeof_object p then code = JSON_stringify p
             else exists s, p = JStr s /\ signInOptionCode s = Some code)
          providers (signInOptionsCodeList JSON_stringify providers)
  /\ Forall2 (fun p o =>
                if typeof_object p then o = p
                else exists s, p = JStr s /\ buildSignInOption s = Some o)
             providers (signInOptions (buildSignInOptions providers))
  /\ warned (buildSignInOptions providers) = [].
Proof.
  induction providers as [|p rest IH]; simpl; intros Hs.
  - repeat split; constructor.
  - apply andb_prop in Hs as [Hp Hrest].
    destruct (IH Hrest) as (IHc & IHb & IHw).
    rewrite signInOptionsCodeList_cons, buildSignInOptions_cons; simpl.
    unfold supported_provider in Hp.
    unfold signInOptionsCode_iter, buildSignInOptions_iter, push.
    destruct (typeof_object p) eqn:Hobj; simpl in *.
    + repeat split; [constructor | constructor | assumption]; try assumption;
        rewrite Hobj; reflexivity.
    + destruct p; try discriminate.
      destruct (known_provider_has_code s Hp) as [code Hcode].
      destruct (known_provider_has_option s Hp) as [o Ho].
      rewrite Hcode, Ho; simpl.
      repeat split; [constructor | constructor | assumption]; try assumption;
        simpl; eauto.
Qed.

(** C8 (as amended): when the configuration is absent (falsy) or has no
    truthy [apiKey], [createSwaggerFirebaseAuth] throws the configuration
    error and returns no result object. *)
Theorem missing_apiKey_raises_configuration_error (firebaseConfig : jsval) (options : UserOptions) :
  truthy firebaseConfig = false \/ truthy (get_prop firebaseConfig "apiKey") = false ->
  createSwaggerFirebaseAuth JSON_stringify firebaseConfig options
  = inl (Error "Firebase config with apiKey is required").
Proof.
  intros [H|H]; unfold createSwaggerFirebaseAuth; rewrite H; simpl;
    [reflexivity | rewrite orb_true_r; reflexivity].
Qed.


End GeneratorProperties.

(** C7, witness: a custom object followed by two known names. *)
Lemma sign_in_options_one_entry_per_supported_provider_witness :
  forallb supported_provider
    [JObj [("provider", JStr "password")]; JStr "google"; JStr "github"] = true
  /\ signInOptionsCodeList sample_stringify
       [JObj [("provider", JStr "password")]; JStr "google"; JStr "github"]
     = [sample_stringify (JObj [("provider", JStr "password")]);
        "{" +:+ nl +:+
        "            provider: firebase.auth.GoogleAuthProvider.PROVIDER_ID," +:+ nl +:+
        "            customParameters: { prompt: 'select_account' }," +:+ nl +:+
        "          }";
        "firebase.auth.GithubAuthProvider.PROVIDER_ID"]
  /\ warned (buildSignInOptions
               [JObj [("provider", JStr "password")]; JStr "google"; JStr "github"]) = [].
Proof.
  split; [reflexivity|].
  split; [reflexivity|].
  apply (sign_in_options_one_entry_per_supported_provider sample_stringify
           [JObj [("provider", JStr "password")]; JStr "google"; JStr "github"]).
  reflexivity.
Defined.

(** C7, counterexample to the claim as stated: an unknown provider name
    contributes no entry, so two providers yield one entry. *)
Lemma unknown_provider_yields_no_entry :
  (forall stringify, signInOptionsCodeList stringify [JStr "email"; JStr "myspace"]
     = ["{" +:+ nl +:+
        "            provider: firebase.auth.EmailAuthProvider.PROVIDER_ID," +:+ nl +:+
        "            requireDisplayName: false," +:+ nl +:+
        "          }"])
  /\ length (signInOptions (buildSignInOptions [JStr "email"; JStr "myspace"])) = 1%nat
  /\ warned (buildSignInOptions [JStr "email"; JStr "myspace"]) = [JStr "myspace"]
  /\ length [JStr "email"; JStr "myspace"] = 2%nat.
Proof. repeat split. Qed.

(** C8, witness: a configuration with [authDomain] and [projectId] but no [apiKey]. *)
Lemma missing_apiKey_raises_configuration_error_witness :
  createSwaggerFirebaseAuth sample_stringify
    (JObj [("authDomain", JStr "p.firebaseapp.com"); ("projectId", JStr "p")]) no_options
  = inl (Error "Firebase config with apiKey is required").
Proof.
  apply (missing_apiKey_raises_configuration_error sample_stringify).
  right; reflexivity.
Defined.

(** C8, counterexample to the claim as stated: [authDomain] and
    [projectId], required by the [FirebaseConfig] type, are missing and
    yet no error is raised: a result object is returned. *)
Lemma config_without_authDomain_and_projectId_is_accepted :
  get_prop (JObj [("apiKey", JStr "AIza")]) "authDomain" = JUndefined
  /\ get_prop (JObj [("apiKey", JStr "AIza")]) "projectId" = JUndefined
  /\ exists script,
       generatePluginScript sample_stringify (JObj [("apiKey", JStr "AIza")]) no_options
       = inr script
       /\ createSwaggerFirebaseAuth sample_stringify (JObj [("apiKey", JStr "AIza")]) no_options
          = inr {| customJs := FIREBASE_JS_URLS;
                   customCssUrl := FIREBASE_CSS_URL;
                   initScript := script |}.
Proof. repeat split. eexists. split; reflexivity. Qed.



(** * Properties of the coordinator *)

Create HintDb fresh.

Section CoordinatorProperties.

Variable schemeName : string.
Variable refreshBeforeMs : Z.
Variable host_decode : string -> option jsval.
Variable ToNumber : jsval -> option Z.

Local Abbreviation step_ := (step schemeName refreshBeforeMs host_decode ToNumber).
Local Abbreviation run_ := (run schemeName refreshBeforeMs host_decode ToNumber).
Local Abbreviation reachable_ := (reachable schemeName refreshBeforeMs host_decode ToNumber).
Local Abbreviation parseJwt_try_ := (parseJwt_try host_decode).
Local Abbreviation bearer_entry_ := (bearer_entry schemeName).

(** ** Freshness of handles *)

Lemma fresh_initial : handles_fresh initial.
Proof. split; intros; apply lookup_empty. Qed.

Lemma fresh_set_refreshTimerId v st :
  handles_fresh st -> handles_fresh (set_refreshTimerId v st).
Proof. intros H; exact H. Qed.

Lemma fresh_console_log m st : handles_fresh st -> handles_fresh (console_log m st).
Proof. intros H; exact H. Qed.

Lemma fresh_record_call c st : handles_fresh st -> handles_fresh (record_call c st).
Proof. intros H; exact H. Qed.

Lemma fresh_unsubscribe st : handles_fresh st -> handles_fresh (unsubscribe st).
Proof. intros H; exact H. Qed.

Lemma fresh_logoutWithPersistOption names st :
  handles_fresh st -> handles_fresh (logoutWithPersistOption names st).
Proof. intros H; exact H. Qed.

Lemma fresh_authorizeWithPersistOption key entry st :
  handles_fresh st -> handles_fresh (authorizeWithPersistOption key entry st).
Proof. intros H; exact H. Qed.

Lemma fresh_clearTimeout t st : handles_fresh st -> handles_fresh (clearTimeout t st).
Proof.
  intros [Ht Hp]; split; simpl; [|exact Hp].
  intros t' Hle. rewrite lookup_delete. case_decide; [reflexivity | auto].
Qed.

Lemma fresh_settle p st : handles_fresh st -> handles_fresh (settle p st).
Proof.
  intros [Ht Hp]; split; simpl; [exact Ht|].
  intros p' Hle. rewrite lookup_delete. case_decide; [reflexivity | auto].
Qed.

Lemma fresh_setTimeout u delay st :
  handles_fresh st -> handles_fresh (snd (setTimeout u delay st)).
Proof.
  intros [Ht Hp]; split; simpl; [|exact Hp].
  intros t Hle. rewrite lookup_insert_ne by lia. apply Ht; lia.
Qed.

Lemma fresh_getIdToken k st : handles_fresh st -> handles_fresh (getIdToken k st).
Proof.
  intros [Ht Hp]; split; simpl; [exact Ht|].
  intros p Hle. rewrite lookup_insert_ne by lia. apply Hp; lia.
Qed.

Hint Resolve fresh_set_refreshTimerId fresh_console_log fresh_record_call
  fresh_unsubscribe fresh_logoutWithPersistOption fresh_authorizeWithPersistOption
  fresh_clearTimeout fresh_settle fresh_setTimeout fresh_getIdToken : fresh.

Lemma fresh_clearRefreshTimer st : handles_fresh st -> handles_fresh (clearRefreshTimer st).
Proof. intros H. unfold clearRefreshTimer. destruct (refreshTimerId st); auto with fresh. Qed.

Lemma fresh_setupRefreshTimer u st :
  handles_fresh st -> handles_fresh (setupRefreshTimer u st).
Proof. intros H. unfold setupRefreshTimer. destruct (refreshTimerId st); auto with fresh. Qed.

Lemma fresh_updateSwaggerAuth token st :
  handles_fresh st -> handles_fresh (updateSwaggerAuth schemeName token st).
Proof. intros H. unfold updateSwaggerAuth. auto with fresh. Qed.

Hint Resolve fresh_clearRefreshTimer fresh_setupRefreshTimer fresh_updateSwaggerAuth : fresh.

Lemma fresh_setupRefreshTimer_then u token now st :
  handles_fresh st ->
  handles_fresh (setupRefreshTimer_then refreshBeforeMs host_decode ToNumber u token now st).
Proof.
  intros H. unfold setupRefreshTimer_then, parseJwt.
  destruct (parseJwt_try_ token) as [decoded|]; simpl.
  - destruct (negb (truthy decoded) || negb (truthy (get_prop decoded "exp")));
      [auto with fresh|].
    destruct (refreshDelay _ _ _ _) as [delay|]; [|auto with fresh].
    destruct (0 <? delay)%Z; [|auto with fresh].
    apply fresh_set_refreshTimerId.
    apply (fresh_setTimeout u delay). auto with fresh.
  - auto with fresh.
Qed.

Lemma fresh_step st ev st' :
  handles_fresh st -> step_ st ev = Some st' -> handles_fresh st'.
Proof.
  intros H Hstep. destruct ev as [u|p token now|p e|t| |]; simpl in Hstep.
  - destruct (subscribed st); [|discriminate]. injection Hstep as <-.
    destruct u; simpl; auto with fresh.
  - destruct (promises st !! p) as [k|]; [|discriminate]. injection Hstep as <-.
    destruct k; simpl; auto using fresh_setupRefreshTimer_then with fresh.
  - destruct (promises st !! p) as [k|]; [|discriminate]. injection Hstep as <-.
    destruct k; simpl; auto with fresh.
    destruct (_ || _); auto with fresh.
  - destruct (timers st !! t) as [tm|]; [|discriminate]. injection Hstep as <-.
    apply fresh_getIdToken. apply (fresh_clearTimeout t) in H. exact H.
  - injection Hstep as <-. unfold logout. auto with fresh.
  - injection Hstep as <-. auto with fresh.
Qed.

Lemma reachable_handles_fresh st : reachable_ st -> handles_fresh st.
Proof.
  induction 1 as [|st ev st' _ IH Hstep]; [apply fresh_initial|].
  exact (fresh_step st ev st' IH Hstep).
Qed.

Lemma run_reachable evs : forall st st',
  reachable_ st -> run_ st evs = Some st' -> reachable_ st'.
Proof.
  induction evs as [|ev rest IH]; simpl; intros st st' Hst Hrun.
  - injection Hrun as <-. exact Hst.
  - destruct (step_ st ev) as [st1|] eqn:Hstep; [|discriminate].
    apply (IH st1); [|exact Hrun].
    exact (reachable_step _ _ _ _ st ev st1 Hst Hstep).
Qed.

(** ** The synchronous building blocks *)

Lemma updateSwaggerAuth_calls token st :
  calls (updateSwaggerAuth schemeName token st)
  = calls st ++ [LogoutWithPersistOption [schemeName];
                 AuthorizeWithPersistOption schemeName (bearer_entry_ token)].
Proof. unfold updateSwaggerAuth, push; simpl. unfold push. rewrite <- app_assoc. reflexivity. Qed.

Lemma updateSwaggerAuth_authorized token st :
  authorized (updateSwaggerAuth schemeName token st)
  = <[schemeName := bearer_entry_ token]> (delete schemeName (authorized st)).
Proof. reflexivity. Qed.

Lemma setupRefreshTimer_promises u st :
  promises (setupRefreshTimer u st) = <[nextPromise st := ArmFetch u]> (promises st).
Proof. unfold setupRefreshTimer. destruct (refreshTimerId st); reflexivity. Qed.

Lemma setupRefreshTimer_timers u st :
  timers (setupRefreshTimer u st)
  = match refreshTimerId st with
    | Some t => delete t (timers st)
    | None => timers st
    end.
Proof. unfold setupRefreshTimer. destruct (refreshTimerId st); reflexivity. Qed.

(** Every call of [setupRefreshTimer] starts by cancelling the stored handle. *)
Lemma setupRefreshTimer_cancels_stored_handle u st :
  refreshTimerId (setupRefreshTimer u st) = None
  /\ forall t, refreshTimerId st = Some t -> timers (setupRefreshTimer u st) !! t = None.
Proof.
  unfold setupRefreshTimer. destruct (refreshTimerId st) as [t0|] eqn:Hid; simpl.
  - split; [reflexivity|]. intros t [= <-]. apply lookup_delete_eq.
  - split; [exact Hid|]. discriminate.
Qed.

Lemma setupRefreshTimer_frame u st :
  calls (setupRefreshTimer u st) = calls st
  /\ authorized (setupRefreshTimer u st) = authorized st
  /\ console (setupRefreshTimer u st) = console st
  /\ nextTimer (setupRefreshTimer u st) = nextTimer st
  /\ nextPromise (setupRefreshTimer u st) = Pos.succ (nextPromise st).
Proof. unfold setupRefreshTimer. destruct (refreshTimerId st); repeat split. Qed.

(** [clearRefreshTimer] cancels the stored handle, and only that one. *)
Lemma clearRefreshTimer_cancels_stored_handle st :
  refreshTimerId (clearRefreshTimer st) = None
  /\ (forall t, refreshTimerId st = Some t -> timers (clearRefreshTimer st) !! t = None)
  /\ (forall t, refreshTimerId st <> Some t ->
                timers (clearRefreshTimer st) !! t = timers st !! t)
  /\ calls (clearRefreshTimer st) = calls st
  /\ authorized (clearRefreshTimer st) = authorized st.
Proof.
  unfold clearRefreshTimer. destruct (refreshTimerId st) as [t0|] eqn:Hid; simpl.
  - repeat split.
    + intros t [= <-]. apply lookup_delete_eq.
    + intros t Hne. apply lookup_delete_ne. congruence.
  - rewrite Hid. repeat split. discriminate.
Qed.

(** A truthy [exp] that is a number makes the decoded payload an object. *)
Lemma exp_number_decoded_truthy decoded exp :
  get_prop decoded "exp" = JNum exp -> truthy decoded = true.
Proof. destruct decoded; simpl; intros H; try discriminate; reflexivity. Qed.

Lemma refreshDelay_number decoded exp now :
  get_prop decoded "exp" = JNum exp ->
  refreshDelay refreshBeforeMs ToNumber decoded now
  = Some (exp * 1000 - refreshBeforeMs - now)%Z.
Proof. intros H. unfold refreshDelay, expiresAt. rewrite H. reflexivity. Qed.

(** ** The continuation of the arming fetch *)

Lemma arming_then_schedules st p u token now decoded exp :
  promises st !! p = Some (ArmFetch u) ->
  parseJwt_try_ token = Some decoded ->
  get_prop decoded "exp" = JNum exp ->
  exp <> 0%Z ->
  (0 < exp * 1000 - refreshBeforeMs - now)%Z ->
  step_ st (TokenResolved p token now)
  = Some (set_refreshTimerId (Some (nextTimer st))
            (snd (setTimeout u (exp * 1000 - refreshBeforeMs - now)%Z
                    (console_log (LogScheduled (exp * 1000 - refreshBeforeMs - now)%Z)
                       (settle p st))))).
Proof.
  intros Hp Htry Hexp Hnz Hpos. simpl. rewrite Hp. simpl.
  unfold setupRefreshTimer_then, parseJwt. rewrite Htry.
  rewrite (exp_number_decoded_truthy decoded exp Hexp).
  rewrite (refreshDelay_number decoded exp now Hexp).
  rewrite Hexp. simpl.
  destruct (Z.eqb_spec exp 0) as [->|_]; [congruence|]. simpl.
  destruct (Z.ltb_spec 0 (exp * 1000 - refreshBeforeMs - now)) as [_|Hle]; [|lia].
  reflexivity.
Qed.

Lemma arming_then_refreshes_immediately st p u token now decoded exp :
  promises st !! p = Some (ArmFetch u) ->
  parseJwt_try_ token = Some decoded ->
  get_prop decoded "exp" = JNum exp ->
  exp <> 0%Z ->
  (exp * 1000 - refreshBeforeMs - now <= 0)%Z ->
  step_ st (TokenResolved p token now)
  = Some (getIdToken (ImmediateForced u) (console_log LogImmediate (settle p st))).
Proof.
  intros Hp Htry Hexp Hnz Hle. simpl. rewrite Hp. simpl.
  unfold setupRefreshTimer_then, parseJwt. rewrite Htry.
  rewrite (exp_number_decoded_truthy decoded exp Hexp).
  rewrite (refreshDelay_number decoded exp now Hexp).
  rewrite Hexp. simpl.
  destruct (Z.eqb_spec exp 0) as [->|_]; [congruence|]. simpl.
  destruct (Z.ltb_spec 0 (exp * 1000 - refreshBeforeMs - now)) as [Hlt|_]; [lia|].
  reflexivity.
Qed.

Lemma arming_then_aborts st p u token now :
  promises st !! p = Some (ArmFetch u) ->
  (parseJwt_try_ token = None
   \/ exists decoded, parseJwt_try_ token = Some decoded
                      /\ truthy (get_prop decoded "exp") = false) ->
  step_ st (TokenResolved p token now)
  = Some (console_log WarnNoExpiration (snd (parseJwt host_decode token (settle p st)))).
Proof.
  intros Hp Hbad. simpl. rewrite Hp. simpl.
  unfold setupRefreshTimer_then, parseJwt.
  destruct Hbad as [Hnone | (decoded & Hsome & Hfalsy)].
  - rewrite Hnone. reflexivity.
  - rewrite Hsome, Hfalsy. simpl. rewrite orb_true_r. reflexivity.
Qed.

(** ** Forced refresh: failure *)

(** On the timer path a failed forced refresh is logged and signs out
    exactly on the two invalid-session codes; nothing is retried. *)
Lemma timer_refresh_failure st p u e :
  promises st !! p = Some (TimerForced u) ->
  exists st',
    step_ st (TokenRejected p e) = Some st'
    /\ calls st' = (if session_invalid e then calls st ++ [SignOut] else calls st)
    /\ console st' = (if session_invalid e
                      then console st ++ [ErrRefreshFailed e; LogSessionExpired]
                      else console st ++ [ErrRefreshFailed e])
    /\ promises st' = delete p (promises st)
    /\ timers st' = timers st
    /\ authorized st' = authorized st.
Proof.
  intros Hp. simpl. rewrite Hp. simpl. fold (session_invalid e).
  destruct (session_invalid e); eexists; (split; [reflexivity|]); simpl;
    unfold push; rewrite <- ?app_assoc; repeat split.
Qed.

(** On the immediate path every failed forced refresh signs out, whatever
    the failure reason is. *)
Lemma immediate_refresh_failure st p u e :
  promises st !! p = Some (ImmediateForced u) ->
  exists st',
    step_ st (TokenRejected p e) = Some st'
    /\ calls st' = calls st ++ [SignOut]
    /\ console st' = console st ++ [ErrImmediateFailed e]
    /\ promises st' = delete p (promises st)
    /\ timers st' = timers st
    /\ authorized st' = authorized st.
Proof.
  intros Hp. simpl. rewrite Hp. simpl. eexists; split; [reflexivity|]. repeat split.
Qed.

(** ** The sign-out notification *)

(** The handler cancels the stored handle, clears the projection for the
    scheme and makes no authorize call; timers other than the stored one
    are left as they are. *)
Lemma sign_out_notification st :
  subscribed st = true ->
  exists st',
    step_ st (IdTokenChanged None) = Some st'
    /\ authorized st' !! schemeName = None
    /\ refreshTimerId st' = None
    /\ (forall t, refreshTimerId st = Some t -> timers st' !! t = None)
    /\ (forall t, refreshTimerId st <> Some t -> timers st' !! t = timers st !! t)
    /\ calls st' = calls st ++ [LogoutWithPersistOption [schemeName]]
    /\ promises st' = promises st.
Proof.
  intros Hsub. simpl. rewrite Hsub. eexists; split; [reflexivity|].
  destruct (clearRefreshTimer_cancels_stored_handle st) as (Hid & Hcancel & Hkeep & Hcalls & Hauth).
  simpl. rewrite Hauth, Hcalls. repeat split; try assumption.
  - apply lookup_delete_eq.
  - unfold clearRefreshTimer. destruct (refreshTimerId st); reflexivity.
Qed.

(** A timer is one-shot: once fired it is no longer pending, and its
    callback starts the forced fetch for the timer's user. *)
Lemma fired_timer_is_removed st t st' :
  step_ st (TimerFired t) = Some st' ->
  exists tm, timers st !! t = Some tm
             /\ timers st' = delete t (timers st)
             /\ promises st' = <[nextPromise st := TimerForced (timer_user tm)]> (promises st).
Proof.
  simpl. destruct (timers st !! t) as [tm|]; [|discriminate].
  intros [= <-]. exists tm. repeat split.
Qed.

(** ** The claims about the coordinator *)



(** C2 (as amended): when the token fetched by an arming call decodes to
    a numeric expiry claim [exp] other than zero, the continuation computes
    [delay = exp * 1000 - refreshBeforeExpiryMs - now]; if [delay > 0] it
    creates exactly one new timer, of that delay, stores its handle and
    starts no token fetch; if [delay <= 0] it starts a forced fetch in the
    same turn and creates no timer.  The projection is not touched. *)
Theorem arming_schedules_one_timer_or_refreshes_immediately
    (st : state) (p : positive) (u : user) (token : string) (now : Z)
    (decoded : jsval) (exp : Z) :
  reachable_ st ->
  promises st !! p = Some (ArmFetch u) ->
  parseJwt_try_ token = Some decoded ->
  get_prop decoded "exp" = JNum exp ->
  exp <> 0%Z ->
  exists st',
    step_ st (TokenResolved p token now) = Some st'
    /\ refreshDelay refreshBeforeMs ToNumber decoded now
       = Some (exp * 1000 - refreshBeforeMs - now)%Z
    /\ ((0 < exp * 1000 - refreshBeforeMs - now)%Z ->
        timers st !! nextTimer st = None
        /\ timers st'
           = <[nextTimer st := mkTimer (exp * 1000 - refreshBeforeMs - now)%Z u]> (timers st)
        /\ size (timers st') = S (size (timers st))
        /\ refreshTimerId st' = Some (nextTimer st)
        /\ promises st' = delete p (promises st))
    /\ ((exp * 1000 - refreshBeforeMs - now <= 0)%Z ->
        timers st' = timers st
        /\ nextTimer st' = nextTimer st
        /\ refreshTimerId st' = refreshTimerId st
        /\ promises st' = <[nextPromise st := ImmediateForced u]> (delete p (promises st)))
    /\ calls st' = calls st
    /\ authorized st' = authorized st.
Proof.
  intros Hreach Hp Htry Hexp Hnz.
  destruct (reachable_handles_fresh st Hreach) as [HfreshT _].
  assert (Hnew : timers st !! nextTimer st = None) by (apply HfreshT; lia).
  destruct (Z.ltb_spec 0 (exp * 1000 - refreshBeforeMs - now)) as [Hpos|Hle].
  - rewrite (arming_then_schedules st p u token now decoded exp Hp Htry Hexp Hnz Hpos).
    eexists; split; [reflexivity|]. simpl.
    split; [exact (refreshDelay_number decoded exp now Hexp)|].
    split; [|split; [lia | split; reflexivity]].
    intros _. split; [exact Hnew|]. split; [reflexivity|].
    split; [apply map_size_insert_None; exact Hnew|]. split; reflexivity.
  - rewrite (arming_then_refreshes_immediately st p u token now decoded exp
               Hp Htry Hexp Hnz Hle).
    eexists; split; [reflexivity|]. simpl.
    split; [exact (refreshDelay_number decoded exp now Hexp)|].
    split; [lia|]. split; [|split; reflexivity].
    intros _. repeat split.
Qed.

(** C6 (as amended): when the token fetched during arming cannot be
    decoded ([parseJwt] catches an exception) or its expiry claim is
    missing (or
    otherwise falsy), the continuation logs a warning and returns: the
    turn completes, no timer is created, the stored handle and the
    projection are as before, no authorize or logout call is made and no
    token fetch is started.  When this arming was the only pending
    activity, no timer and no promise is pending afterwards, so none of
    the page's own events (timer firing, promise settlement) can occur:
    only a notification or a user action makes the page act again. *)
Theorem unusable_expiry_aborts_arming
    (st : state) (p : positive) (u : user) (token : string) (now : Z) :
  promises st !! p = Some (ArmFetch u) ->
  (parseJwt_try_ token = None
   \/ exists decoded, parseJwt_try_ token = Some decoded
                      /\ truthy (get_prop decoded "exp") = false) ->
  exists st',
    step_ st (TokenResolved p token now) = Some st'
    /\ timers st' = timers st
    /\ nextTimer st' = nextTimer st
    /\ refreshTimerId st' = refreshTimerId st
    /\ authorized st' = authorized st
    /\ calls st' = calls st
    /\ promises st' = delete p (promises st)
    /\ nextPromise st' = nextPromise st
    /\ (exists logs, console st' = console st ++ logs ++ [WarnNoExpiration])
    /\ (timers st = ∅ -> promises st = {[p := ArmFetch u]} ->
        forall ev, automatic ev = true -> step_ st' ev = None).
Proof.
  intros Hp Hbad.
  rewrite (arming_then_aborts st p u token now Hp Hbad).
  eexists; split; [reflexivity|].
  assert (Hparse : exists logs,
             snd (parseJwt host_decode token (settle p st))
             = mkState (refreshTimerId st) (timers st) (nextTimer st)
                 (delete p (promises st)) (nextPromise st) (subscribed st)
                 (authorized st) (calls st) (console st ++ logs)).
  { unfold parseJwt. destruct (parseJwt_try_ token); simpl.
    - exists []. rewrite app_nil_r. reflexivity.
    - exists [ErrParseJwt]. reflexivity. }
  destruct Hparse as [logs ->]. simpl.
  do 7 (split; [reflexivity|]).
  split; [exists logs; unfold push; rewrite app_assoc; reflexivity|].
  intros Htimers Hpromises ev Hauto.
  destruct ev as [?|q ? ?|q ?|t| |]; try discriminate; simpl.
  - rewrite Hpromises, delete_singleton_eq, lookup_empty. reflexivity.
  - rewrite Hpromises, delete_singleton_eq, lookup_empty. reflexivity.
  - rewrite Htimers, lookup_empty. reflexivity.
Qed.

End CoordinatorProperties.

(** * Worked examples on the page generated with the default options *)

Lemma after_reachable (evs : list event) :
  default_run initial evs = Some (after evs) ->
  reachable (securitySchemeName DEFAULT_OPTIONS) (refreshBeforeExpiryMs DEFAULT_OPTIONS)
            sample_decode sample_ToNumber (after evs).
Proof.
  intros Hrun.
  apply (run_reachable _ _ _ _ evs initial (after evs)); [apply reachable_initial | exact Hrun].
Defined.

(** C1, the failing run: after a proactive refresh that the identity
    provider also announces to the listener, two refresh timers (handles
    2 and 3) are pending at once; the script remembers only the second. *)
Theorem overlapping_arming_leaves_two_timers_pending :
  exists st,
    default_run initial refresh_with_notification_trace = Some st
    /\ promises st = ∅
    /\ timers st !! 2%positive = Some (mkTimer 3600000 1%nat)
    /\ timers st !! 3%positive = Some (mkTimer 3600000 1%nat)
    /\ size (timers st) = 2%nat
    /\ refreshTimerId st = Some 3%positive.
Proof.
  eexists. split; [vm_compute; reflexivity|].
  repeat split; vm_compute; reflexivity.
Qed.

(** C2, witness: with the default lead of 300000 ms, a token that expires
    3600 s after [now] arms one timer of 3300000 ms. *)
Lemma arming_schedules_one_timer_or_refreshes_immediately_witness :
  exists st',
    default_step (after signed_in_trace) (TokenResolved 2 token_exp_3600 0) = Some st'
    /\ timers st' = {[ 1%positive := mkTimer 3300000 1%nat ]}
    /\ refreshTimerId st' = Some 1%positive
    /\ promises st' = ∅.
Proof.
  destruct (arming_schedules_one_timer_or_refreshes_immediately
              (securitySchemeName DEFAULT_OPTIONS) (refreshBeforeExpiryMs DEFAULT_OPTIONS)
              sample_decode sample_ToNumber
              (after signed_in_trace) 2%positive 1%nat token_exp_3600 0%Z
              (JObj [("exp", JNum 3600)]) 3600%Z)
    as (st' & Hstep & _ & Hpos & _).
  - apply after_reachable. vm_compute. reflexivity.
  - vm_compute. reflexivity.
  - vm_compute. reflexivity.
  - reflexivity.
  - discriminate.
  - exists st'. split; [exact Hstep|].
    destruct Hpos as (_ & Htimers & _ & Hid & Hpromises); [reflexivity|].
    rewrite Htimers, Hid, Hpromises. repeat split; vm_compute; reflexivity.
Defined.

(** C2, counterexample to the claim as stated: the token decodes to the
    expiry claim [exp = 0], so the delay is negative, and yet the arming
    continuation starts no forced fetch: it warns and returns. *)
Lemma zero_expiry_claim_starts_no_refresh :
  parseJwt_try sample_decode token_exp_0 = Some (JObj [("exp", JNum 0)])
  /\ (0 * 1000 - refreshBeforeExpiryMs DEFAULT_OPTIONS - 1000 <= 0)%Z
  /\ promises (after signed_in_trace) !! 2%positive = Some (ArmFetch 1%nat)
  /\ exists st',
       default_step (after signed_in_trace) (TokenResolved 2 token_exp_0 1000) = Some st'
       /\ promises st' = ∅
       /\ timers st' = ∅
       /\ console st' = [LogTokenUpdated; WarnNoExpiration].
Proof.
  split; [reflexivity|]. split; [vm_compute; discriminate|].
  split; [vm_compute; reflexivity|].
  eexists. split; [vm_compute; reflexivity|].
  repeat split; vm_compute; reflexivity.
Qed.

(** C3, the failing run: on the immediate path the forced refresh fails
    with a network error, which is not an invalid-session reason, and the
    script signs the user out all the same. *)
Theorem immediate_refresh_network_error_signs_out :
  promises (after expiring_soon_trace) !! 3%positive = Some (ImmediateForced 1%nat)
  /\ session_invalid network_error = false
  /\ exists st',
       default_step (after expiring_soon_trace) (TokenRejected 3 network_error) = Some st'
       /\ calls st' = calls (after expiring_soon_trace) ++ [SignOut]
       /\ console st' = console (after expiring_soon_trace) ++ [ErrImmediateFailed network_error].
Proof.
  split; [vm_compute; reflexivity|]. split; [reflexivity|].
  eexists. split; [vm_compute; reflexivity|].
  split; vm_compute; reflexivity.
Qed.

(** The same failure on the timer path is logged only. *)
Example timer_refresh_network_error_is_logged_only :
  promises (after timer_fired_trace) !! 3%positive = Some (TimerForced 1%nat)
  /\ exists st',
       default_step (after timer_fired_trace) (TokenRejected 3 network_error) = Some st'
       /\ calls st' = calls (after timer_fired_trace)
       /\ console st' = console (after timer_fired_trace) ++ [ErrRefreshFailed network_error].
Proof.
  split; [vm_compute; reflexivity|].
  eexists. split; [vm_compute; reflexivity|].
  split; vm_compute; reflexivity.
Qed.



(** C5, the failing run: two timers are pending (handles 1 and 2, of
    which the script remembers 2) when the sign-out notification arrives;
    the handler cancels timer 2 and clears the projection, and timer 1 is
    still pending afterwards. *)
Theorem sign_out_leaves_overwritten_timer_pending :
  timers (after two_notifications_trace)
  = {[ 1%positive := mkTimer 3300000 1%nat; 2%positive := mkTimer 3300000 1%nat ]}
  /\ refreshTimerId (after two_notifications_trace) = Some 2%positive
  /\ exists st',
       default_step (after two_notifications_trace) (IdTokenChanged None) = Some st'
       /\ timers st' = {[ 1%positive := mkTimer 3300000 1%nat ]}
       /\ refreshTimerId st' = None
       /\ authorized st' !! "firebase" = None.
Proof.
  split; [vm_compute; reflexivity|]. split; [vm_compute; reflexivity|].
  eexists. split; [vm_compute; reflexivity|].
  repeat split; vm_compute; reflexivity.
Qed.

(** C6, witness: a token without a second segment, and a token whose
    payload has no [exp]. *)
Lemma unusable_expiry_aborts_arming_witness :
  (exists st',
     default_step (after signed_in_trace) (TokenResolved 2 "not-a-jwt" 0) = Some st'
     /\ timers st' = ∅ /\ promises st' = ∅
     /\ authorized st' = authorized (after signed_in_trace)
     /\ forall t, default_step st' (TimerFired t) = None)
  /\ (exists st',
        default_step (after signed_in_trace) (TokenResolved 2 token_no_exp 0) = Some st'
        /\ timers st' = ∅ /\ promises st' = ∅
        /\ authorized st' = authorized (after signed_in_trace)
        /\ forall t, default_step st' (TimerFired t) = None).
Proof.
  split.
  - destruct (unusable_expiry_aborts_arming
                (securitySchemeName DEFAULT_OPTIONS) (refreshBeforeExpiryMs DEFAULT_OPTIONS)
                sample_decode sample_ToNumber
                (after signed_in_trace) 2%positive 1%nat "not-a-jwt" 0%Z)
      as (st' & Hstep & Htimers & _ & _ & Hauth & _ & Hpromises & _ & _ & Hquiet).
    + vm_compute. reflexivity.
    + left. reflexivity.
    + exists st'. split; [exact Hstep|].
      split; [rewrite Htimers; vm_compute; reflexivity|].
      split; [rewrite Hpromises; vm_compute; reflexivity|].
      split; [exact Hauth|].
      intros t. apply Hquiet; [vm_compute; reflexivity | vm_compute; reflexivity | reflexivity].
  - destruct (unusable_expiry_aborts_arming
                (securitySchemeName DEFAULT_OPTIONS) (refreshBeforeExpiryMs DEFAULT_OPTIONS)
                sample_decode sample_ToNumber
                (after signed_in_trace) 2%positive 1%nat token_no_exp 0%Z)
      as (st' & Hstep & Htimers & _ & _ & Hauth & _ & Hpromises & _ & _ & Hquiet).
    + vm_compute. reflexivity.
    + right. exists (JObj [("sub", JStr "u")]). split; reflexivity.
    + exists st'. split; [exact Hstep|].
      split; [rewrite Htimers; vm_compute; reflexivity|].
      split; [rewrite Hpromises; vm_compute; reflexivity|].
      split; [exact Hauth|].
      intros t. apply Hquiet; [vm_compute; reflexivity | vm_compute; reflexivity | reflexivity].
Defined.

(** C6, counterexample to the claim as stated.  First, an expiry claim
    that is present and cannot be read as a number (the text [soon]) does
    not abort arming: the continuation logs that the token is expiring and
    starts a forced refresh (promise 3).  Second, after an aborted arming
    the page refreshes by itself with no further notification: the fetch
    of a second notification (promise 3) was in flight when the arming of
    the first was aborted; it projects the token and arms timer 1, which
    fires and starts a forced refresh (promise 5). *)
Lemma refresh_without_notification_after_unusable_expiry :
  (parseJwt_try sample_decode_text token_exp_text = Some (JObj [("exp", JStr "soon")])
   /\ exists st',
        step "firebase" 300000 sample_decode_text sample_ToNumber
             (after signed_in_trace) (TokenResolved 2 token_exp_text 0) = Some st'
        /\ console st' = console (after signed_in_trace) ++ [LogImmediate]
        /\ promises st' = {[ 3%positive := ImmediateForced 1%nat ]})
  /\ (exists st1 st2,
        default_run initial abort_during_second_sign_in_trace = Some st1
        /\ console st1 = [LogTokenUpdated; WarnNoExpiration]
        /\ timers st1 = ∅
        /\ default_run st1 [TokenResolved 3 token_exp_3600 0;
                            TokenResolved 4 token_exp_3600 0;
                            TimerFired 1] = Some st2
        /\ console st2 = [LogTokenUpdated; WarnNoExpiration;
                          LogTokenUpdated; LogScheduled 3300000]
        /\ promises st2 = {[ 5%positive := TimerForced 1%nat ]}).
Proof.
  split.
  - split; [vm_compute; reflexivity|].
    eexists. split; [vm_compute; reflexivity|].
    split; vm_compute; reflexivity.
  - eexists. eexists. split; [vm_compute; reflexivity|].
    split; [vm_compute; reflexivity|]. split; [vm_compute; reflexivity|].
    split; [vm_compute; reflexivity|]. split; vm_compute; reflexivity.
Qed.


(** * Further properties of the generator *)

Section GeneratorCoverage.

Variable JSON_stringify : jsval -> string.

Lemma unknown_provider_has_no_code s :
  existsb (String.eqb s) known_providers = false -> signInOptionCode s = None.
Proof.
  unfold known_providers, signInOptionCode; simpl.
  repeat (destruct (String.eqb s _); [discriminate|]).
  reflexivity.
Qed.

Lemma unknown_provider_has_no_option s :
  existsb (String.eqb s) known_providers = false -> buildSignInOption s = None.
Proof.
  unfold known_providers, buildSignInOption; simpl.
  repeat (destruct (String.eqb s _); [discriminate|]).
  reflexivity.
Qed.

Lemma signInOptionsCode_iter_unsupported p :
  supported_provider p = false -> signInOptionsCode_iter JSON_stringify [] p = [].
Proof.
  unfold supported_provider, signInOptionsCode_iter.
  destruct (typeof_object p); [discriminate|]. simpl.
  destruct p; try reflexivity.
  intros H. rewrite (unknown_provider_has_no_code s H). reflexivity.
Qed.

Lemma signInOptionsCode_iter_supported p :
  supported_provider p = true ->
  length (signInOptionsCode_iter JSON_stringify [] p) = 1%nat.
Proof.
  unfold supported_provider, signInOptionsCode_iter.
  destruct (typeof_object p); [reflexivity|]. simpl.
  destruct p; try discriminate.
  intros H. destruct (known_provider_has_code s H) as [code ->]. reflexivity.
Qed.

Lemma buildSignInOptions_iter_unsupported p :
  supported_provider p = false ->
  buildSignInOptions_iter (mkBuilt [] []) p = mkBuilt [] [p].
Proof.
  unfold supported_provider, buildSignInOptions_iter.
  destruct (typeof_object p); [discriminate|]. simpl.
  destruct p; try reflexivity.
  intros H. rewrite (unknown_provider_has_no_option s H). reflexivity.
Qed.

Lemma buildSignInOptions_iter_supported p :
  supported_provider p = true ->
  exists o, buildSignInOptions_iter (mkBuilt [] []) p = mkBuilt [o] [].
Proof.
  unfold supported_provider, buildSignInOptions_iter.
  destruct (typeof_object p); [eexists; reflexivity|]. simpl.
  destruct p; try discriminate.
  intros H. destruct (known_provider_has_option s H) as [o ->]. eexists; reflexivity.
Qed.

(** X1: [generateSignInOptionsCode] keeps exactly the supported providers
    (custom objects and known names): its array is the one it builds for
    the input with every other member removed, it has one fragment per
    supported member, it is empty exactly when no member is supported (the
    generated text is then empty), and it has as many entries as the array
    of [buildSignInOptions]. *)
Theorem sign_in_code_keeps_exactly_supported_providers (providers : list jsval) :
  signInOptionsCodeList JSON_stringify providers
  = signInOptionsCodeList JSON_stringify (List.filter supported_provider providers)
  /\ length (signInOptionsCodeList JSON_stringify providers)
     = length (List.filter supported_provider providers)
  /\ (signInOptionsCodeList JSON_stringify providers = []
      <-> List.filter supported_provider providers = [])
  /\ (List.filter supported_provider providers = []
      -> generateSignInOptionsCode JSON_stringify providers = "")
  /\ length (signInOptions (buildSignInOptions providers))
     = length (signInOptionsCodeList JSON_stringify providers).
Proof.
  assert (Hfilter : signInOptionsCodeList JSON_stringify providers
                    = signInOptionsCodeList JSON_stringify
                        (List.filter supported_provider providers)).
  { induction providers as [|p rest IH]; [reflexivity|]. simpl.
    rewrite signInOptionsCodeList_cons.
    destruct (supported_provider p) eqn:Hp.
    - rewrite signInOptionsCodeList_cons, IH. reflexivity.
    - rewrite (signInOptionsCode_iter_unsupported p Hp). exact IH. }
  assert (Hlen : length (signInOptionsCodeList JSON_stringify providers)
                 = length (List.filter supported_provider providers)).
  { clear Hfilter.
    induction providers as [|p rest IH]; [reflexivity|]. simpl.
    rewrite signInOptionsCodeList_cons, length_app, IH.
    destruct (supported_provider p) eqn:Hp; simpl.
    - rewrite (signInOptionsCode_iter_supported p Hp). reflexivity.
    - rewrite (signInOptionsCode_iter_unsupported p Hp). reflexivity. }
  assert (Hnil : signInOptionsCodeList JSON_stringify providers = []
                 <-> List.filter supported_provider providers = []).
  { split; intros H.
    - apply length_zero_iff_nil. rewrite <- Hlen, H. reflexivity.
    - apply length_zero_iff_nil. rewrite Hlen, H. reflexivity. }
  split; [exact Hfilter|]. split; [exact Hlen|]. split; [exact Hnil|].
  split.
  - intros H. unfold generateSignInOptionsCode, join.
    apply Hnil in H. rewrite H. reflexivity.
  - rewrite Hlen. clear Hfilter Hlen Hnil.
    induction providers as [|p rest IH]; [reflexivity|].
    rewrite buildSignInOptions_cons. simpl. rewrite length_app, IH.
    destruct (supported_provider p) eqn:Hp.
    + destruct (buildSignInOptions_iter_supported p Hp) as [o ->]. reflexivity.
    + rewrite (buildSignInOptions_iter_unsupported p Hp). reflexivity.
Qed.

(** X2: [buildSignInOptions] gives every provider exactly one outcome, in
    input order: a supported provider gets one option, every other member
    is reported by [console.warn]; nothing is warned about exactly when all
    members are supported. *)
Theorem buildSignInOptions_keeps_or_warns_every_provider (providers : list jsval) :
  warned (buildSignInOptions providers)
  = List.filter (fun p => negb (supported_provider p)) providers
  /\ length (signInOptions (buildSignInOptions providers))
     = length (List.filter supported_provider providers)
  /\ (length (signInOptions (buildSignInOptions providers))
      + length (warned (buildSignInOptions providers)) = length providers)%nat
  /\ (warned (buildSignInOptions providers) = []
      <-> forallb supported_provider providers = true).
Proof.
  assert (Hw : warned (buildSignInOptions providers)
               = List.filter (fun p => negb (supported_provider p)) providers).
  { induction providers as [|p rest IH]; [reflexivity|].
    rewrite buildSignInOptions_cons. simpl. rewrite IH.
    destruct (supported_provider p) eqn:Hp; simpl.
    - destruct (buildSignInOptions_iter_supported p Hp) as [o ->]. reflexivity.
    - rewrite (buildSignInOptions_iter_unsupported p Hp). reflexivity. }
  assert (Hs : length (signInOptions (buildSignInOptions providers))
               = length (List.filter supported_provider providers)).
  { clear Hw. induction providers as [|p rest IH]; [reflexivity|].
    rewrite buildSignInOptions_cons. simpl. rewrite length_app, IH.
    destruct (supported_provider p) eqn:Hp; simpl.
    - destruct (buildSignInOptions_iter_supported p Hp) as [o ->]. reflexivity.
    - rewrite (buildSignInOptions_iter_unsupported p Hp). reflexivity. }
  split; [exact Hw|]. split; [exact Hs|]. split.
  - rewrite Hs, Hw. clear Hw Hs.
    induction providers as [|p rest IH]; [reflexivity|]. simpl.
    destruct (supported_provider p); simpl; lia.
  - rewrite Hw. clear Hw Hs.
    induction providers as [|p rest IH]; simpl; [split; reflexivity|].
    destruct (supported_provider p); simpl.
    + exact IH.
    + split; discriminate.
Qed.

(** X3: both option builders distribute over concatenation of provider
    lists: the options of [a ++ b] are those of [a] followed by those of
    [b] (and likewise the warnings). *)
Theorem sign_in_options_of_concatenated_lists (a b : list jsval) :
  signInOptionsCodeList JSON_stringify (a ++ b)
  = signInOptionsCodeList JSON_stringify a ++ signInOptionsCodeList JSON_stringify b
  /\ signInOptions (buildSignInOptions (a ++ b))
     = signInOptions (buildSignInOptions a) ++ signInOptions (buildSignInOptions b)
  /\ warned (buildSignInOptions (a ++ b))
     = warned (buildSignInOptions a) ++ warned (buildSignInOptions b).
Proof.
  split; [|split].
  - unfold signInOptionsCodeList at 1. rewrite fold_left_app.
    apply signInOptionsCodeList_from.
  - unfold buildSignInOptions at 1. rewrite fold_left_app.
    rewrite buildSignInOptions_from. reflexivity.
  - unfold buildSignInOptions at 1. rewrite fold_left_app.
    rewrite buildSignInOptions_from. reflexivity.
Qed.

End GeneratorCoverage.

(** X1, witness: every member is unsupported, so the generated text is empty. *)
Lemma sign_in_code_keeps_exactly_supported_providers_witness :
  generateSignInOptionsCode sample_stringify [JStr "myspace"; JNum 7; JUndefined] = "".
Proof.
  destruct (sign_in_code_keeps_exactly_supported_providers sample_stringify
              [JStr "myspace"; JNum 7; JUndefined]) as (_ & _ & _ & Hempty & _).
  apply Hempty. reflexivity.
Defined.

(** * Further properties of the coordinator *)

Section CoordinatorCoverage.

Variable schemeName : string.
Variable refreshBeforeMs : Z.
Variable host_decode : string -> option jsval.
Variable ToNumber : jsval -> option Z.

Local Abbreviation step_ := (step schemeName refreshBeforeMs host_decode ToNumber).
Local Abbreviation run_ := (run schemeName refreshBeforeMs host_decode ToNumber).
Local Abbreviation reachable_ := (reachable schemeName refreshBeforeMs host_decode ToNumber).
Local Abbreviation parseJwt_try_ := (parseJwt_try host_decode).
Local Abbreviation bearer_entry_ := (bearer_entry schemeName).
Local Abbreviation then_ := (setupRefreshTimer_then refreshBeforeMs host_decode ToNumber).
Local Abbreviation logout_call := (LogoutWithPersistOption [schemeName]).

(** ** What the arming continuation can do *)

Lemma parseJwt_state token st :
  exists logs,
    snd (parseJwt host_decode token st)
    = mkState (refreshTimerId st) (timers st) (nextTimer st) (promises st) (nextPromise st)
        (subscribed st) (authorized st) (calls st) (console st ++ logs).
Proof.
  unfold parseJwt. destruct (parseJwt_try_ token); simpl.
  - exists []. rewrite app_nil_r. destruct st; reflexivity.
  - exists [ErrParseJwt]. reflexivity.
Qed.

(** The continuation of the arming fetch does one of three things: it
    returns, it sets one timer of positive delay and stores its handle, or
    it starts the forced fetch.  It never touches the projection. *)
Lemma setupRefreshTimer_then_cases u token now st :
  calls (then_ u token now st) = calls st
  /\ authorized (then_ u token now st) = authorized st
  /\ subscribed (then_ u token now st) = subscribed st
  /\ ((timers (then_ u token now st) = timers st
       /\ refreshTimerId (then_ u token now st) = refreshTimerId st
       /\ nextTimer (then_ u token now st) = nextTimer st
       /\ (promises (then_ u token now st) = promises st
           \/ promises (then_ u token now st)
              = <[nextPromise st := ImmediateForced u]> (promises st)))
      \/ (exists delay,
             (0 < delay)%Z
             /\ timers (then_ u token now st) = <[nextTimer st := mkTimer delay u]> (timers st)
             /\ refreshTimerId (then_ u token now st) = Some (nextTimer st)
             /\ promises (then_ u token now st) = promises st)).
Proof.
  unfold setupRefreshTimer_then.
  destruct (parseJwt host_decode token st) as [decoded st1] eqn:Hparse.
  destruct (parseJwt_state token st) as [logs Hst1].
  rewrite Hparse in Hst1. simpl in Hst1. subst st1.
  destruct (negb (truthy decoded) || negb (truthy (get_prop decoded "exp"))).
  { simpl. repeat split. left. repeat split. left. reflexivity. }
  destruct (refreshDelay refreshBeforeMs ToNumber decoded now) as [delay|].
  - destruct (Z.ltb_spec 0 delay) as [Hpos|Hle].
    + simpl. repeat split. right. exists delay. repeat split. exact Hpos.
    + simpl. repeat split. left. repeat split. right. reflexivity.
  - simpl. repeat split. left. repeat split. right. reflexivity.
Qed.

(** ** Calls made by one turn of the event loop *)

Lemma setup_update_calls u token st :
  calls (setupRefreshTimer u (updateSwaggerAuth schemeName token st))
  = calls st ++ [logout_call; AuthorizeWithPersistOption schemeName (bearer_entry_ token)].
Proof.
  destruct (setupRefreshTimer_frame u (updateSwaggerAuth schemeName token st)) as (-> & _).
  apply updateSwaggerAuth_calls.
Qed.

Lemma step_calls st ev st' :
  step_ st ev = Some st' ->
  exists suffix,
    calls st' = calls st ++ suffix
    /\ (suffix = []
        \/ suffix = [logout_call]
        \/ (exists token,
               suffix = [logout_call;
                         AuthorizeWithPersistOption schemeName (bearer_entry_ token)])
        \/ suffix = [SignOut]
        \/ suffix = [SignOut; logout_call; ShowDefinitions_false])
    /\ (In SignOut suffix <-> signs_out st ev = true).
Proof.
  intros Hstep. destruct ev as [u|p token now|p e|t| |]; simpl in Hstep.
  - destruct (subscribed st); [|discriminate]. injection Hstep as <-.
    destruct u as [u|]; simpl.
    + exists []. rewrite app_nil_r. split; [reflexivity|]. split; [auto|].
      split; [intros []|discriminate].
    + exists [logout_call]. split.
      * destruct (clearRefreshTimer_cancels_stored_handle st) as (_ & _ & _ & -> & _).
        reflexivity.
      * split; [auto|]. split; [intros [H|[]]; discriminate|discriminate].
  - destruct (promises st !! p) as [k|] eqn:Hp; [|discriminate]. injection Hstep as <-.
    destruct k as [u|u|u|u]; unfold on_fulfilled.
    all: try (exists [logout_call; AuthorizeWithPersistOption schemeName (bearer_entry_ token)];
              split; [rewrite setup_update_calls; reflexivity|];
              split; [eauto 6|];
              split; [intros [H|[H|[]]]; discriminate | discriminate]).
    exists []. rewrite app_nil_r.
    destruct (setupRefreshTimer_then_cases u token now (settle p st)) as (Hc & _).
    split; [exact Hc|]. split; [auto|]. split; [intros []|discriminate].
  - destruct (promises st !! p) as [k|] eqn:Hp; [|discriminate]. injection Hstep as <-.
    unfold signs_out. rewrite Hp.
    destruct k as [u|u|u|u]; simpl.
    + exists []. rewrite app_nil_r. split; [reflexivity|]. split; [auto|].
      split; [intros []|discriminate].
    + exists []. rewrite app_nil_r. split; [reflexivity|]. split; [auto|].
      split; [intros []|discriminate].
    + fold (session_invalid e). destruct (session_invalid e); simpl.
      * exists [SignOut]. split; [reflexivity|]. split; [auto 6|].
        split; [reflexivity|intros _; left; reflexivity].
      * exists []. rewrite app_nil_r. split; [reflexivity|]. split; [auto|].
        split; [intros []|discriminate].
    + exists [SignOut]. split; [reflexivity|]. split; [auto 6|].
      split; [reflexivity|intros _; left; reflexivity].
  - destruct (timers st !! t) as [tm|]; [|discriminate]. injection Hstep as <-.
    exists []. rewrite app_nil_r. split; [reflexivity|]. split; [auto|].
    split; [intros []|discriminate].
  - injection Hstep as <-. exists [SignOut; logout_call; ShowDefinitions_false].
    split.
    + unfold logout, record_call, logoutWithPersistOption, push; simpl.
      destruct (clearRefreshTimer_cancels_stored_handle st) as (_ & _ & _ & -> & _).
      rewrite <- !app_assoc. reflexivity.
    + split; [auto 8|]. split; [reflexivity|intros _; left; reflexivity].
  - injection Hstep as <-. exists []. rewrite app_nil_r.
    split.
    + destruct (clearRefreshTimer_cancels_stored_handle (unsubscribe st))
        as (_ & _ & _ & -> & _). reflexivity.
    + split; [auto|]. split; [intros []|discriminate].
Qed.

(** X4: the script calls [firebase.auth().signOut()] in exactly three
    situations: the popup's Logout button, a forced refresh on the timer
    path that fails with one of the two invalid-session codes, and any
    failed forced refresh on the immediate path.  In these turns it calls
    it once; in every other turn of the event loop (notifications,
    successful fetches, timer firings, failed plain fetches, cleanup) it
    does not call it. *)
Theorem sign_out_is_called_exactly_on_failed_refresh_or_logout
    (st : state) (ev : event) (st' : state) :
  step_ st ev = Some st' ->
  (signs_out st ev = true ->
   exists rest, calls st' = calls st ++ SignOut :: rest /\ ~ In SignOut rest)
  /\ (signs_out st ev = false ->
      exists suffix, calls st' = calls st ++ suffix /\ ~ In SignOut suffix).
Proof.
  intros Hstep.
  destruct (step_calls st ev st' Hstep) as (suffix & Hcalls & Hshape & Hsign).
  split; intros Hs.
  - apply Hsign in Hs.
    destruct Hshape as [-> | [-> | [[token ->] | [-> | ->]]]].
    + destruct Hs.
    + destruct Hs as [H|[]]; discriminate.
    + destruct Hs as [H|[H|[]]]; discriminate.
    + exists []. split; [exact Hcalls|]. intros [].
    + exists [logout_call; ShowDefinitions_false]. split; [exact Hcalls|].
      intros [H|[H|[]]]; discriminate.
  - exists suffix. split; [exact Hcalls|].
    intros Hin. apply Hsign in Hin. congruence.
Qed.

(** ** The call log of reachable states *)



(** ** Pending timers *)

Lemma clearRefreshTimer_timers_lookup st t tm :
  timers (clearRefreshTimer st) !! t = Some tm -> timers st !! t = Some tm.
Proof.
  unfold clearRefreshTimer. destruct (refreshTimerId st); simpl; [|auto].
  intros H. apply lookup_delete_Some in H as [_ H]. exact H.
Qed.

Lemma setupRefreshTimer_timers_lookup u st t tm :
  timers (setupRefreshTimer u st) !! t = Some tm -> timers st !! t = Some tm.
Proof.
  rewrite setupRefreshTimer_timers. destruct (refreshTimerId st); [|auto].
  intros H. apply lookup_delete_Some in H as [_ H]. exact H.
Qed.

Lemma on_rejected_frame k e st :
  timers (on_rejected k e st) = timers st
  /\ refreshTimerId (on_rejected k e st) = refreshTimerId st
  /\ nextTimer (on_rejected k e st) = nextTimer st
  /\ promises (on_rejected k e st) = promises st
  /\ nextPromise (on_rejected k e st) = nextPromise st
  /\ authorized (on_rejected k e st) = authorized st
  /\ subscribed (on_rejected k e st) = subscribed st.
Proof.
  destruct k; simpl; try (repeat split; fail).
  destruct (_ || _); repeat split.
Qed.

(** A pending timer is either an older one or the one this turn created,
    and a created timer has a positive delay. *)
Lemma step_timers st ev st' t tm :
  step_ st ev = Some st' ->
  timers st' !! t = Some tm ->
  timers st !! t = Some tm \/ (t = nextTimer st /\ (0 < timer_delay tm)%Z).
Proof.
  intros Hstep Ht. destruct ev as [u|p token now|p e|t0| |]; simpl in Hstep.
  - destruct (subscribed st); [|discriminate]. injection Hstep as <-.
    destruct u; simpl in Ht; [auto|].
    left. exact (clearRefreshTimer_timers_lookup st t tm Ht).
  - destruct (promises st !! p) as [k|]; [|discriminate]. injection Hstep as <-.
    destruct k as [u|u|u|u]; unfold on_fulfilled in Ht.
    1,3,4: left; exact (setupRefreshTimer_timers_lookup _ _ t tm Ht).
    destruct (setupRefreshTimer_then_cases u token now (settle p st))
      as (_ & _ & _ & [(Hsame & _)|(delay & Hpos & Hnew & _)]).
    + rewrite Hsame in Ht. auto.
    + rewrite Hnew in Ht. simpl in Ht.
      destruct (decide (nextTimer st = t)) as [<-|Hne].
      * rewrite lookup_insert_eq in Ht. injection Ht as <-. right. auto.
      * rewrite lookup_insert_ne in Ht by exact Hne. auto.
  - destruct (promises st !! p) as [k|]; [|discriminate]. injection Hstep as <-.
    destruct (on_rejected_frame k e (settle p st)) as (Hsame & _).
    rewrite Hsame in Ht. auto.
  - destruct (timers st !! t0) as [tm0|]; [|discriminate]. injection Hstep as <-.
    simpl in Ht. apply lookup_delete_Some in Ht as [_ Ht]. auto.
  - injection Hstep as <-. left. exact (clearRefreshTimer_timers_lookup st t tm Ht).
  - injection Hstep as <-. left.
    exact (clearRefreshTimer_timers_lookup (unsubscribe st) t tm Ht).
Qed.

(** X6: in every reachable state, every pending refresh timer was set
    with a positive delay: the script never calls [setTimeout] with a
    zero or negative delay. *)
Theorem pending_timers_have_positive_delay (st : state) (t : positive) (tm : timer) :
  reachable_ st ->
  timers st !! t = Some tm ->
  (0 < timer_delay tm)%Z.
Proof.
  intros Hreach. revert t tm.
  induction Hreach as [|st ev st' Hreach IH Hstep]; intros t tm Ht.
  - unfold initial in Ht. simpl in Ht. rewrite lookup_empty in Ht. discriminate.
  - destruct (step_timers st ev st' t tm Hstep Ht) as [Hold|[_ Hpos]].
    + exact (IH t tm Hold).
    + exact Hpos.
Qed.

(** A timer whose handle is not the stored one survives a turn of the
    event loop, unless it fires; and its handle is not stored again. *)
Lemma unstored_timer_survives_step st ev st' t tm :
  handles_fresh st ->
  step_ st ev = Some st' ->
  timers st !! t = Some tm ->
  refreshTimerId st <> Some t ->
  ev <> TimerFired t ->
  timers st' !! t = Some tm /\ refreshTimerId st' <> Some t.
Proof.
  intros [Hfresh _] Hstep Ht Hid Hev.
  assert (Hnext : nextTimer st <> t).
  { intros <-. rewrite Hfresh in Ht by lia. discriminate. }
  assert (Hclear : forall s0, timers s0 = timers st -> refreshTimerId s0 = refreshTimerId st ->
            timers (clearRefreshTimer s0) !! t = Some tm
            /\ refreshTimerId (clearRefreshTimer s0) <> Some t).
  { intros s0 Htm Hrid.
    destruct (clearRefreshTimer_cancels_stored_handle s0) as (Hnone & _ & Hkeep & _).
    rewrite Hkeep by (rewrite Hrid; exact Hid). rewrite Htm, Hnone. split; [exact Ht|discriminate]. }
  assert (Hsetup : forall u s0, timers s0 = timers st -> refreshTimerId s0 = refreshTimerId st ->
            timers (setupRefreshTimer u s0) !! t = Some tm
            /\ refreshTimerId (setupRefreshTimer u s0) <> Some t).
  { intros u s0 Htm Hrid.
    destruct (setupRefreshTimer_cancels_stored_handle u s0) as (Hnone & _).
    rewrite Hnone, setupRefreshTimer_timers, Hrid, Htm. split; [|discriminate].
    destruct (refreshTimerId st) as [t0|]; [|exact Ht].
    rewrite lookup_delete_ne by congruence. exact Ht. }
  destruct ev as [u|p token now|p e|t0| |]; simpl in Hstep.
  - destruct (subscribed st); [|discriminate]. injection Hstep as <-.
    destruct u; simpl; [auto|]. apply (Hclear st); reflexivity.
  - destruct (promises st !! p) as [k|]; [|discriminate]. injection Hstep as <-.
    destruct k as [u|u|u|u]; unfold on_fulfilled.
    1,3,4: apply Hsetup; reflexivity.
    destruct (setupRefreshTimer_then_cases u token now (settle p st))
      as (_ & _ & _ & [(Hsame & Hrid & _)|(delay & _ & Hnew & Hrid & _)]).
    + rewrite Hsame, Hrid. auto.
    + rewrite Hnew, Hrid. simpl. rewrite lookup_insert_ne by exact Hnext.
      split; [exact Ht|congruence].
  - destruct (promises st !! p) as [k|]; [|discriminate]. injection Hstep as <-.
    destruct (on_rejected_frame k e (settle p st)) as (Hsame & Hrid & _).
    rewrite Hsame, Hrid. auto.
  - destruct (timers st !! t0) as [tm0|]; [|discriminate]. injection Hstep as <-.
    simpl. rewrite lookup_delete_ne by congruence. auto.
  - injection Hstep as <-. apply (Hclear st); reflexivity.
  - injection Hstep as <-. apply (Hclear (unsubscribe st)); reflexivity.
Qed.

(** X7: a pending timer whose handle is no longer stored in
    [refreshTimerId] is out of the script's reach: along every run of the
    page in which that timer does not fire, whatever else happens
    (sign-out, logout, cleanup, new armings), it stays pending and its
    handle is never stored again. *)
Theorem unstored_timer_is_never_cancelled
    (evs : list event) (st st' : state) (t : positive) (tm : timer) :
  reachable_ st ->
  run_ st evs = Some st' ->
  timers st !! t = Some tm ->
  refreshTimerId st <> Some t ->
  ~ In (TimerFired t) evs ->
  timers st' !! t = Some tm /\ refreshTimerId st' <> Some t.
Proof.
  revert st. induction evs as [|ev rest IH]; simpl; intros st Hreach Hrun Ht Hid Hnot.
  - injection Hrun as <-. auto.
  - destruct (step_ st ev) as [st1|] eqn:Hstep; [|discriminate].
    destruct (unstored_timer_survives_step st ev st1 t tm
                (reachable_handles_fresh _ _ _ _ st Hreach) Hstep Ht Hid) as [Ht1 Hid1].
    { intros ->. apply Hnot. left. reflexivity. }
    apply (IH st1); auto.
    exact (reachable_step _ _ _ _ st ev st1 Hreach Hstep).
Qed.

(** ** The projection *)

Lemma clearRefreshTimer_frame st :
  promises (clearRefreshTimer st) = promises st
  /\ nextPromise (clearRefreshTimer st) = nextPromise st
  /\ nextTimer (clearRefreshTimer st) = nextTimer st
  /\ subscribed (clearRefreshTimer st) = subscribed st.
Proof. unfold clearRefreshTimer. destruct (refreshTimerId st); repeat split. Qed.

Lemma setup_update_authorized u token st :
  authorized (setupRefreshTimer u (updateSwaggerAuth schemeName token st))
  = <[schemeName := bearer_entry_ token]> (delete schemeName (authorized st)).
Proof.
  destruct (setupRefreshTimer_frame u (updateSwaggerAuth schemeName token st)) as (_ & -> & _).
  apply updateSwaggerAuth_authorized.
Qed.



(** ** Sign-in, failures, and what outlives a sign-out *)

(** X10: a notification that carries a user changes nothing but starting
    the token fetch: the projection keeps its previous entry until the
    token arrives.  When it arrives, the same turn makes the logout call
    and the authorize call with that token, cancels the stored timer and
    starts exactly one arming fetch for that user. *)
Theorem sign_in_notification_projects_token_and_arms
    (st : state) (u : user) (token : string) (now : Z) :
  subscribed st = true ->
  exists st1,
    step_ st (IdTokenChanged (Some u)) = Some st1
    /\ calls st1 = calls st
    /\ authorized st1 = authorized st
    /\ timers st1 = timers st
    /\ refreshTimerId st1 = refreshTimerId st
    /\ promises st1 = <[nextPromise st := InitFetch u]> (promises st)
    /\ exists st2,
         step_ st1 (TokenResolved (nextPromise st) token now) = Some st2
         /\ calls st2 = calls st
                        ++ [logout_call;
                            AuthorizeWithPersistOption schemeName (bearer_entry_ token)]
         /\ console st2 = console st ++ [LogTokenUpdated]
         /\ authorized st2 !! schemeName = Some (bearer_entry_ token)
         /\ refreshTimerId st2 = None
         /\ (forall t, refreshTimerId st = Some t -> timers st2 !! t = None)
         /\ nextTimer st2 = nextTimer st
         /\ promises st2
            = <[Pos.succ (nextPromise st) := ArmFetch u]>
                (delete (nextPromise st) (<[nextPromise st := InitFetch u]> (promises st))).
Proof.
  intros Hsub. simpl. rewrite Hsub.
  eexists. split; [reflexivity|]. simpl.
  do 5 (split; [reflexivity|]).
  rewrite lookup_insert_eq.
  eexists. split; [reflexivity|]. unfold on_fulfilled.
  match goal with |- context [setupRefreshTimer u ?s] => set (s1 := s) end.
  destruct (setupRefreshTimer_frame u s1) as (_ & _ & Hcons & HnextT & _).
  destruct (setupRefreshTimer_cancels_stored_handle u s1) as (Hid & Hcancel).
  split; [subst s1; rewrite setup_update_calls; reflexivity|].
  split; [rewrite Hcons; reflexivity|].
  split; [subst s1; rewrite setup_update_authorized; apply lookup_insert_eq|].
  split; [exact Hid|]. split; [exact Hcancel|]. split; [exact HnextT|].
  rewrite setupRefreshTimer_promises. reflexivity.
Qed.

(** X11: a failed token fetch is never retried.  Whatever fetch fails and
    whatever the reason, the turn that handles the failure starts no
    fetch and sets no timer, and leaves the pending timers, the stored
    handle and the projection as they are. *)
Theorem failed_fetch_is_never_retried
    (st : state) (p : positive) (e : jsval) (st' : state) :
  step_ st (TokenRejected p e) = Some st' ->
  promises st' = delete p (promises st)
  /\ nextPromise st' = nextPromise st
  /\ timers st' = timers st
  /\ nextTimer st' = nextTimer st
  /\ refreshTimerId st' = refreshTimerId st
  /\ authorized st' = authorized st.
Proof.
  simpl. destruct (promises st !! p) as [k|]; [|discriminate]. intros [= <-].
  destruct (on_rejected_frame k e (settle p st)) as (-> & -> & -> & -> & -> & -> & _).
  repeat split.
Qed.

(** X12: nothing cancels a token fetch in flight.  When the session or
    the component ends (sign-out notification, Logout button, cleanup)
    while the fetch started by the notification handler is pending, the
    fetch stays pending; when it resolves, the token is written to the
    projection and arming is started, although the session has ended. *)
Theorem token_fetch_in_flight_outlives_end_of_session
    (st : state) (ev : event) (st1 : state) (p : positive) (u : user)
    (token : string) (now : Z) :
  ends_session ev = true ->
  step_ st ev = Some st1 ->
  promises st !! p = Some (InitFetch u) ->
  promises st1 = promises st
  /\ (ev <> Unmounted -> authorized st1 !! schemeName = None)
  /\ exists st2,
       step_ st1 (TokenResolved p token now) = Some st2
       /\ authorized st2 !! schemeName = Some (bearer_entry_ token)
       /\ calls st2 = calls st1
                      ++ [logout_call;
                          AuthorizeWithPersistOption schemeName (bearer_entry_ token)]
       /\ promises st2 !! nextPromise st = Some (ArmFetch u).
Proof.
  intros Hend Hstep Hp.
  assert (Hfacts : promises st1 = promises st /\ nextPromise st1 = nextPromise st
                   /\ (ev <> Unmounted -> authorized st1 !! schemeName = None)).
  { destruct ev as [[u0|]| | | | |]; try discriminate; simpl in Hstep.
    - destruct (subscribed st); [|discriminate]. injection Hstep as <-. simpl.
      destruct (clearRefreshTimer_frame st) as (-> & -> & _).
      repeat split. intros _. apply lookup_delete_eq.
    - injection Hstep as <-. unfold logout. simpl.
      destruct (clearRefreshTimer_frame st) as (-> & -> & _).
      repeat split. intros _. apply lookup_delete_eq.
    - injection Hstep as <-.
      destruct (clearRefreshTimer_frame (unsubscribe st)) as (-> & -> & _).
      repeat split. congruence. }
  destruct Hfacts as (Hprom & Hnext & Hauth).
  split; [exact Hprom|]. split; [exact Hauth|].
  simpl. rewrite Hprom, Hp.
  eexists. split; [reflexivity|]. unfold on_fulfilled.
  split; [rewrite setup_update_authorized; apply lookup_insert_eq|].
  split; [rewrite setup_update_calls; reflexivity|].
  rewrite setupRefreshTimer_promises. simpl. rewrite Hnext. apply lookup_insert_eq.
Qed.

(** X13: nor is an arming fetch in flight cancelled: when the session or
    the component ends while it is pending and it then yields a token
    whose expiry leaves a positive delay, a refresh timer is set and its
    handle stored, although the session has ended. *)
Theorem arming_in_flight_outlives_end_of_session
    (st : state) (ev : event) (st1 : state) (p : positive) (u : user)
    (token : string) (now : Z) (decoded : jsval) (exp : Z) :
  ends_session ev = true ->
  step_ st ev = Some st1 ->
  promises st !! p = Some (ArmFetch u) ->
  parseJwt_try_ token = Some decoded ->
  get_prop decoded "exp" = JNum exp ->
  exp <> 0%Z ->
  (0 < exp * 1000 - refreshBeforeMs - now)%Z ->
  refreshTimerId st1 = None
  /\ exists st2,
       step_ st1 (TokenResolved p token now) = Some st2
       /\ timers st2 !! nextTimer st
          = Some (mkTimer (exp * 1000 - refreshBeforeMs - now)%Z u)
       /\ refreshTimerId st2 = Some (nextTimer st).
Proof.
  intros Hend Hstep Hp Htry Hexp Hnz Hpos.
  assert (Hfacts : promises st1 = promises st /\ nextTimer st1 = nextTimer st
                   /\ refreshTimerId st1 = None).
  { destruct ev as [[u0|]| | | | |]; try discriminate; simpl in Hstep.
    - destruct (subscribed st); [|discriminate]. injection Hstep as <-. simpl.
      destruct (clearRefreshTimer_frame st) as (-> & _ & -> & _).
      destruct (clearRefreshTimer_cancels_stored_handle st) as (-> & _). repeat split.
    - injection Hstep as <-. unfold logout. simpl.
      destruct (clearRefreshTimer_frame st) as (-> & _ & -> & _).
      destruct (clearRefreshTimer_cancels_stored_handle st) as (-> & _). repeat split.
    - injection Hstep as <-.
      destruct (clearRefreshTimer_frame (unsubscribe st)) as (-> & _ & -> & _).
      destruct (clearRefreshTimer_cancels_stored_handle (unsubscribe st)) as (-> & _).
      repeat split. }
  destruct Hfacts as (Hprom & Hnext & Hid).
  split; [exact Hid|].
  rewrite <- Hprom in Hp.
  rewrite (arming_then_schedules _ _ _ _ st1 p u token now decoded exp Hp Htry Hexp Hnz Hpos).
  eexists. split; [reflexivity|]. simpl. rewrite Hnext.
  split; [apply lookup_insert_eq | reflexivity].
Qed.

(** X14: the effect's cleanup unsubscribes the listener and cancels the
    stored timer, and nothing else: it makes no call on Swagger UI or on
    the identity provider, so that a token that was installed stays in the
    projection; a timer whose handle is not the stored one stays pending,
    and so does every token fetch in flight. *)
Theorem cleanup_keeps_the_token_installed (st st1 : state) :
  step_ st Unmounted = Some st1 ->
  subscribed st1 = false
  /\ refreshTimerId st1 = None
  /\ (forall t, refreshTimerId st = Some t -> timers st1 !! t = None)
  /\ (forall t, refreshTimerId st <> Some t -> timers st1 !! t = timers st !! t)
  /\ promises st1 = promises st
  /\ authorized st1 = authorized st
  /\ calls st1 = calls st.
Proof.
  simpl. intros [= <-].
  destruct (clearRefreshTimer_cancels_stored_handle (unsubscribe st))
    as (Hid & Hcancel & Hkeep & Hcalls & Hauth).
  destruct (clearRefreshTimer_frame (unsubscribe st)) as (Hpromises & _ & _ & Hsub).
  split; [rewrite Hsub; reflexivity|].
  split; [exact Hid|]. split; [exact Hcancel|]. split; [exact Hkeep|].
  split; [exact Hpromises|]. split; [exact Hauth|exact Hcalls].
Qed.

(** ** Decoding the token *)

Lemma split_on_segment c a b :
  no_char c a = true -> split_on c (a +:+ String c b) = a :: split_on c b.
Proof.
  induction a as [|x a' IH]; simpl; intros Hno.
  - rewrite Ascii.eqb_refl. reflexivity.
  - apply andb_prop in Hno as [Hx Hrest].
    apply negb_true_iff in Hx. rewrite Hx, (IH Hrest). reflexivity.
Qed.

Lemma split_on_no_char c s : no_char c s = true -> split_on c s = [s].
Proof.
  induction s as [|x s' IH]; simpl; intros Hno; [reflexivity|].
  apply andb_prop in Hno as [Hx Hrest].
  apply negb_true_iff in Hx. rewrite Hx, (IH Hrest). reflexivity.
Qed.

Lemma to_base64_alphabet s :
  no_char "-" (to_base64 s) = true
  /\ no_char "_" (to_base64 s) = true
  /\ String.length (to_base64 s) = String.length s.
Proof.
  unfold to_base64. induction s as [|a s' (IH1 & IH2 & IH3)]; simpl; [auto|].
  rewrite IH1, IH2, IH3.
  destruct (Ascii.eqb_spec a "-") as [->|Hminus]; simpl; [auto|].
  destruct (Ascii.eqb_spec a "_") as [->|Hunder]; simpl; [auto|].
  apply Ascii.eqb_neq in Hminus, Hunder. rewrite Hminus, Hunder. auto.
Qed.

(** X15: [parseJwt] reads the second dot-separated segment of the token
    and nothing else: the header, the signature and any further segment
    do not influence the result (nothing is verified).  The segment is
    handed to the decoder with [-] and [_] replaced ([+], [/]), at the
    same length; a token without a dot is never decoded. *)
Theorem parseJwt_reads_only_the_second_segment (header payload rest : string) :
  no_char "." header = true ->
  no_char "." payload = true ->
  parseJwt_try_ (header +:+ "." +:+ payload +:+ "." +:+ rest) = host_decode (to_base64 payload)
  /\ parseJwt_try_ (header +:+ "." +:+ payload) = host_decode (to_base64 payload)
  /\ parseJwt_try_ header = None
  /\ no_char "-" (to_base64 payload) = true
  /\ no_char "_" (to_base64 payload) = true
  /\ String.length (to_base64 payload) = String.length payload.
Proof.
  intros Hh Hp. unfold parseJwt_try.
  change ("." +:+ payload +:+ "." +:+ rest) with (String "." (payload +:+ String "." rest)).
  change ("." +:+ payload) with (String "." payload).
  rewrite !(split_on_segment "." header _ Hh).
  rewrite (split_on_segment "." payload rest Hp).
  rewrite (split_on_no_char "." payload Hp), (split_on_no_char "." header Hh).
  simpl. repeat split; apply to_base64_alphabet.
Qed.

(** ** Expiry claims that are not numbers, and tokens that are always expiring *)

Lemma truthy_property_object decoded k :
  truthy (get_prop decoded k) = true -> truthy decoded = true.
Proof. destruct decoded; simpl; try discriminate; reflexivity. Qed.

(** X16: a truthy expiry claim that does not convert to a number (the
    product [decoded.exp * 1000] is NaN) is not treated as missing: the
    comparison [delay > 0] fails and the continuation takes the
    immediate path, starting a forced fetch and setting no timer. *)
Theorem non_numeric_expiry_refreshes_immediately
    (st : state) (p : positive) (u : user) (token : string) (now : Z) (decoded : jsval) :
  promises st !! p = Some (ArmFetch u) ->
  parseJwt_try_ token = Some decoded ->
  truthy (get_prop decoded "exp") = true ->
  expiresAt ToNumber decoded = None ->
  exists st',
    step_ st (TokenResolved p token now) = Some st'
    /\ promises st' = <[nextPromise st := ImmediateForced u]> (delete p (promises st))
    /\ timers st' = timers st
    /\ nextTimer st' = nextTimer st
    /\ console st' = console st ++ [LogImmediate]
    /\ calls st' = calls st.
Proof.
  intros Hp Htry Hexp Hnan. simpl. rewrite Hp. simpl.
  unfold setupRefreshTimer_then, parseJwt, refreshDelay. rewrite Htry, Hnan.
  rewrite (truthy_property_object decoded "exp" Hexp), Hexp. simpl.
  eexists. split; [reflexivity|]. repeat split.
Qed.

Lemma run_cons st ev rest :
  run_ st (ev :: rest)
  = match step_ st ev with
    | Some st' => run_ st' rest
    | None => None
    end.
Proof. reflexivity. Qed.

(** X17: while the tokens it gets are inside the refresh window
    ([delay <= 0], as with a lead time that is not below the token
    lifetime), the page refreshes without pause: each arming fetch that
    resolves starts a forced fetch, and each forced fetch that resolves
    projects the token and starts the next arming fetch.  After [n] such
    rounds the script has made [n] more projections and has never called
    [setTimeout]; an arming fetch is pending again. *)
Theorem expiring_tokens_are_refetched_without_pause
    (n : nat) (st : state) (p : positive) (u : user) (token : string) (now : Z)
    (decoded : jsval) (exp : Z) :
  promises st !! p = Some (ArmFetch u) ->
  nextPromise st = Pos.succ p ->
  parseJwt_try_ token = Some decoded ->
  get_prop decoded "exp" = JNum exp ->
  exp <> 0%Z ->
  (exp * 1000 - refreshBeforeMs - now <= 0)%Z ->
  exists st' q,
    run_ st (refresh_rounds n p token now) = Some st'
    /\ nextTimer st' = nextTimer st
    /\ length (calls st') = (length (calls st) + 2 * n)%nat
    /\ (n <> O -> authorized st' !! schemeName = Some (bearer_entry_ token))
    /\ promises st' !! q = Some (ArmFetch u)
    /\ nextPromise st' = Pos.succ q.
Proof.
  intros Hp Hnext Htry Hexp Hnz Hle. revert st p Hp Hnext.
  induction n as [|n IH]; intros st p Hp Hnext.
  - exists st, p. simpl. repeat split; try assumption; [lia | congruence].
  - simpl refresh_rounds. rewrite run_cons.
    rewrite (arming_then_refreshes_immediately _ _ _ _ st p u token now decoded exp
               Hp Htry Hexp Hnz Hle).
    rewrite run_cons.
    set (st1 := getIdToken (ImmediateForced u) (console_log LogImmediate (settle p st))).
    assert (Hforced : promises st1 !! Pos.succ p = Some (ImmediateForced u)).
    { subst st1. simpl. rewrite Hnext. apply lookup_insert_eq. }
    assert (Hstep : step_ st1 (TokenResolved (Pos.succ p) token now)
                    = Some (setupRefreshTimer u
                              (updateSwaggerAuth schemeName token (settle (Pos.succ p) st1)))).
    { unfold step. rewrite Hforced. reflexivity. }
    rewrite Hstep.
    set (st2 := setupRefreshTimer u
                  (updateSwaggerAuth schemeName token (settle (Pos.succ p) st1))).
    destruct (setupRefreshTimer_frame u
                (updateSwaggerAuth schemeName token (settle (Pos.succ p) st1)))
      as (_ & _ & _ & HnextT & HnextP).
    assert (Harm : promises st2 !! Pos.succ (Pos.succ p) = Some (ArmFetch u)).
    { subst st2. rewrite setupRefreshTimer_promises. simpl. rewrite Hnext.
      apply lookup_insert_eq. }
    assert (Hnext2 : nextPromise st2 = Pos.succ (Pos.succ (Pos.succ p))).
    { subst st2. rewrite HnextP. simpl. rewrite Hnext. reflexivity. }
    destruct (IH st2 (Pos.succ (Pos.succ p)) Harm Hnext2)
      as (st' & q & Hrun & Htimer & Hcalls & Hauth & Hq & Hnq).
    exists st', q. split; [exact Hrun|].
    split; [rewrite Htimer; subst st2; rewrite HnextT; reflexivity|].
    split.
    { rewrite Hcalls. subst st2. rewrite setup_update_calls, length_app. simpl. lia. }
    split; [|split; assumption].
    intros _. destruct n as [|n'].
    + simpl in Hrun. injection Hrun as <-. subst st2.
      rewrite setup_update_authorized. apply lookup_insert_eq.
    + apply Hauth. discriminate.
Qed.

(** ** Armings that do not overlap *)

Lemma arming_pending_false st :
  arming_pending st = false -> forall p u, promises st !! p <> Some (ArmFetch u).
Proof.
  unfold arming_pending. intros Hnone p u Hp.
  assert (Hex : existsb (fun pk => is_arming (snd pk)) (map_to_list (promises st)) = true).
  { apply existsb_exists. exists (p, ArmFetch u). split; [|reflexivity].
    apply list_elem_of_In. apply elem_of_map_to_list. exact Hp. }
  congruence.
Qed.

Lemma clearRefreshTimer_timers st :
  timers (clearRefreshTimer st)
  = match refreshTimerId st with
    | Some t => delete t (timers st)
    | None => timers st
    end.
Proof. unfold clearRefreshTimer. destruct (refreshTimerId st); reflexivity. Qed.

Lemma stored_timer_cancelled_leaves_none (tms : gmap positive timer) (stored : option positive) :
  (forall t tm, tms !! t = Some tm -> stored = Some t) ->
  match stored with
  | Some t => delete t tms
  | None => tms
  end = ∅.
Proof.
  intros Honly. apply map_empty. intros i.
  destruct stored as [t|].
  - destruct (decide (t = i)) as [->|Hne]; [apply lookup_delete_eq|].
    rewrite lookup_delete_ne by exact Hne.
    destruct (tms !! i) as [tm|] eqn:Hi; [|reflexivity].
    specialize (Honly i tm Hi). congruence.
  - destruct (tms !! i) as [tm|] eqn:Hi; [|reflexivity].
    specialize (Honly i tm Hi). discriminate.
Qed.

Lemma arming_lookup_insert (m : gmap positive task) n k p u :
  is_arming k = false ->
  <[n := k]> m !! p = Some (ArmFetch u) -> m !! p = Some (ArmFetch u).
Proof.
  intros Hk Hp. apply lookup_insert_Some in Hp as [[_ Heq]|[_ Hp]]; [|exact Hp].
  subst k. discriminate.
Qed.

Lemma lookup_delete_old (m : gmap positive task) d p k :
  delete d m !! p = Some k -> m !! p = Some k /\ d <> p.
Proof. intros H. apply lookup_delete_Some in H as [Hne H]. auto. Qed.

Lemma arming_exclusive_initial : arming_exclusive initial.
Proof.
  unfold arming_exclusive, initial; simpl.
  repeat split; intros; try reflexivity;
    match goal with H : ∅ !! _ = Some _ |- _ => rewrite lookup_empty in H; discriminate end.
Qed.

(** Ending the session or the component leaves no timer pending when the
    stored handle was the only one. *)
Lemma arming_exclusive_after_clear st s0 :
  arming_exclusive st ->
  timers s0 = timers st -> refreshTimerId s0 = refreshTimerId st ->
  forall s1,
    timers s1 = timers (clearRefreshTimer s0) ->
    promises s1 = promises st ->
    arming_exclusive s1.
Proof.
  intros (J1 & J2 & J3) Htm Hid s1 Htm1 Hpr1.
  assert (Hempty : timers s1 = ∅).
  { rewrite Htm1, clearRefreshTimer_timers, Hid, Htm.
    apply stored_timer_cancelled_leaves_none. exact J1. }
  unfold arming_exclusive. rewrite Hempty, Hpr1.
  split; [intros t tm Ht; rewrite lookup_empty in Ht; discriminate|].
  split; [exact J2|]. reflexivity.
Qed.

Lemma arming_exclusive_step st ev st' :
  arming_exclusive st ->
  step_ st ev = Some st' ->
  starts_arming st ev && arming_pending st = false ->
  arming_exclusive st'.
Proof.
  intros J Hstep Hseq. pose proof J as (J1 & J2 & J3).
  destruct ev as [u|p token now|p e|t0| |]; simpl in Hstep.
  - destruct (subscribed st); [|discriminate]. injection Hstep as <-.
    destruct u as [u|].
    + unfold arming_exclusive; simpl. split; [exact J1|]. split.
      * intros p q u1 u2 Hp Hq.
        apply arming_lookup_insert in Hp; [|reflexivity].
        apply arming_lookup_insert in Hq; [|reflexivity]. eauto.
      * intros p u1 Hp. apply arming_lookup_insert in Hp; [|reflexivity]. eauto.
    + apply (arming_exclusive_after_clear st st J eq_refl eq_refl); [reflexivity|].
      simpl. apply clearRefreshTimer_frame.
  - destruct (promises st !! p) as [k|] eqn:Hp; [|discriminate]. injection Hstep as <-.
    unfold starts_arming in Hseq. rewrite Hp in Hseq.
    destruct k as [u|u|u|u]; unfold on_fulfilled.
    1,3,4:
      simpl in Hseq;
      pose proof (arming_pending_false st Hseq) as Hnone;
      match goal with |- arming_exclusive (setupRefreshTimer ?u0 ?s) =>
        assert (Htm : timers (setupRefreshTimer u0 s) = ∅)
          by (rewrite setupRefreshTimer_timers;
              exact (stored_timer_cancelled_leaves_none _ _ J1));
        assert (Hpr : promises (setupRefreshTimer u0 s)
                      = <[nextPromise st := ArmFetch u0]> (delete p (promises st)))
          by (rewrite setupRefreshTimer_promises; reflexivity);
        destruct (setupRefreshTimer_cancels_stored_handle u0 s) as (Hid & _);
        unfold arming_exclusive; rewrite Htm, Hpr, Hid
      end;
      (split; [intros t tm Ht; rewrite lookup_empty in Ht; discriminate|]);
      (split; [|reflexivity]);
      intros q1 q2 u1 u2 Hq1 Hq2;
      apply lookup_insert_Some in Hq1 as [[<- _]|[_ Hq1]];
      [ apply lookup_insert_Some in Hq2 as [[<- _]|[_ Hq2]]; [reflexivity|];
        apply lookup_delete_old in Hq2 as [Hq2 _]; destruct (Hnone _ _ Hq2)
      | apply lookup_delete_old in Hq1 as [Hq1 _]; destruct (Hnone _ _ Hq1) ].
    pose proof (J3 p u Hp) as Hempty.
    destruct (setupRefreshTimer_then_cases u token now (settle p st))
      as (_ & _ & _ & [(Htm & Hid & _ & Hpr)|(delay & _ & Htm & Hid & Hpr)]).
    + unfold arming_exclusive. rewrite Htm, Hid. simpl. rewrite Hempty.
      split; [intros t tm Ht; rewrite lookup_empty in Ht; discriminate|].
      split; [|reflexivity].
      intros q1 q2 u1 u2 Hq1 Hq2.
      destruct Hpr as [Hpr|Hpr]; rewrite Hpr in Hq1, Hq2; simpl in Hq1, Hq2.
      * apply lookup_delete_old in Hq1 as [Hq1 _].
        apply lookup_delete_old in Hq2 as [Hq2 _]. eauto.
      * apply arming_lookup_insert in Hq1; [|reflexivity].
        apply arming_lookup_insert in Hq2; [|reflexivity].
        apply lookup_delete_old in Hq1 as [Hq1 _].
        apply lookup_delete_old in Hq2 as [Hq2 _]. eauto.
    + unfold arming_exclusive. rewrite Htm, Hid, Hpr. simpl. rewrite Hempty.
      split.
      { intros t tm Ht. apply lookup_insert_Some in Ht as [[<- _]|[_ Ht]]; [reflexivity|].
        rewrite lookup_empty in Ht. discriminate. }
      split.
      { intros q1 q2 u1 u2 Hq1 Hq2.
        apply lookup_delete_old in Hq1 as [Hq1 _].
        apply lookup_delete_old in Hq2 as [Hq2 _]. eauto. }
      intros q u1 Hq. apply lookup_delete_old in Hq as [Hq Hne].
      destruct Hne. exact (J2 p q u u1 Hp Hq).
  - destruct (promises st !! p) as [k|] eqn:Hp; [|discriminate]. injection Hstep as <-.
    destruct (on_rejected_frame k e (settle p st)) as (Htm & Hid & _ & Hpr & _).
    unfold arming_exclusive. rewrite Htm, Hid, Hpr. simpl.
    split; [exact J1|]. split.
    + intros q1 q2 u1 u2 Hq1 Hq2.
      apply lookup_delete_old in Hq1 as [Hq1 _].
      apply lookup_delete_old in Hq2 as [Hq2 _]. eauto.
    + intros q u1 Hq. apply lookup_delete_old in Hq as [Hq _]. eauto.
  - destruct (timers st !! t0) as [tm0|] eqn:Ht0; [|discriminate]. injection Hstep as <-.
    unfold arming_exclusive; simpl. split.
    + intros t tm Ht. apply lookup_delete_Some in Ht as [_ Ht]. eauto.
    + split.
      * intros q1 q2 u1 u2 Hq1 Hq2.
        apply arming_lookup_insert in Hq1; [|reflexivity].
        apply arming_lookup_insert in Hq2; [|reflexivity]. eauto.
      * intros q u1 Hq. apply arming_lookup_insert in Hq; [|reflexivity].
        rewrite (J3 q u1 Hq). apply delete_empty.
  - injection Hstep as <-.
    apply (arming_exclusive_after_clear st st J eq_refl eq_refl); [reflexivity|].
    unfold logout. simpl. apply clearRefreshTimer_frame.
  - injection Hstep as <-.
    apply (arming_exclusive_after_clear st (unsubscribe st) J eq_refl eq_refl); [reflexivity|].
    apply (clearRefreshTimer_frame (unsubscribe st)).
Qed.

Lemma only_stored_timer_size (tms : gmap positive timer) (stored : option positive) :
  (forall t tm, tms !! t = Some tm -> stored = Some t) -> size tms <= 1.
Proof.
  intros Honly.
  pose proof (stored_timer_cancelled_leaves_none tms stored Honly) as Hempty.
  destruct stored as [t|].
  - destruct (tms !! t) as [tm|] eqn:Ht.
    + rewrite <- (insert_delete_id tms t tm Ht), Hempty.
      rewrite map_size_insert_None by apply lookup_empty.
      rewrite map_size_empty. lia.
    + rewrite delete_id in Hempty by exact Ht. rewrite Hempty, map_size_empty. lia.
  - rewrite Hempty, map_size_empty. lia.
Qed.

(** X18: when armings do not overlap, the timer invariant holds.  In
    every run of the page from its initial state in which
    [setupRefreshTimer] is never called while an arming fetch is still in
    flight, at most one refresh timer is pending, and a pending timer is
    the one whose handle is stored in [refreshTimerId]. *)
Theorem one_timer_when_armings_do_not_overlap (evs : list event) (st' : state) :
  run_ initial evs = Some st' ->
  arms_one_at_a_time step_ initial evs = true ->
  size (timers st') <= 1
  /\ forall t tm, timers st' !! t = Some tm -> refreshTimerId st' = Some t.
Proof.
  intros Hrun Hseq.
  assert (J : arming_exclusive st').
  { revert Hrun Hseq. generalize arming_exclusive_initial. generalize initial as st.
    induction evs as [|ev rest IH]; simpl; intros st J Hrun Hseq.
    - injection Hrun as <-. exact J.
    - destruct (step_ st ev) as [st1|] eqn:Hstep; [|discriminate].
      apply andb_prop in Hseq as [Hev Hrest].
      apply negb_true_iff in Hev.
      exact (IH st1 (arming_exclusive_step st ev st1 J Hstep Hev) Hrun Hrest). }
  destruct J as (J1 & _).
  split; [exact (only_stored_timer_size _ _ J1) | exact J1].
Qed.

End CoordinatorCoverage.

(** * Worked examples of the further properties *)

(** X4, witness: a network error on the timer path makes no sign-out call. *)
Lemma sign_out_is_called_exactly_on_failed_refresh_or_logout_witness :
  signs_out (after timer_fired_trace) (TokenRejected 3 network_error) = false
  /\ exists st' suffix,
       default_step (after timer_fired_trace) (TokenRejected 3 network_error) = Some st'
       /\ calls st' = calls (after timer_fired_trace) ++ suffix
       /\ ~ In SignOut suffix.
Proof.
  split; [vm_compute; reflexivity|].
  destruct (default_step (after timer_fired_trace) (TokenRejected 3 network_error))
    as [st'|] eqn:Hstep; [|vm_compute in Hstep; discriminate].
  destruct (sign_out_is_called_exactly_on_failed_refresh_or_logout
              (securitySchemeName DEFAULT_OPTIONS) (refreshBeforeExpiryMs DEFAULT_OPTIONS)
              sample_decode sample_ToNumber
              (after timer_fired_trace) (TokenRejected 3 network_error) st' Hstep)
    as [_ Hquiet].
  destruct Hquiet as (suffix & Hcalls & Hnot); [vm_compute; reflexivity|].
  exists st', suffix. auto.
Defined.


(** X6, witness: the timer armed at sign-in. *)
Lemma pending_timers_have_positive_delay_witness :
  timers (after timer_armed_trace) !! 1%positive = Some (mkTimer 3300000 1%nat)
  /\ (0 < timer_delay (mkTimer 3300000 1%nat))%Z.
Proof.
  assert (Ht : timers (after timer_armed_trace) !! 1%positive = Some (mkTimer 3300000 1%nat))
    by (vm_compute; reflexivity).
  split; [exact Ht|].
  exact (pending_timers_have_positive_delay
           (securitySchemeName DEFAULT_OPTIONS) (refreshBeforeExpiryMs DEFAULT_OPTIONS)
           sample_decode sample_ToNumber
           (after timer_armed_trace) 1%positive (mkTimer 3300000 1%nat)
           (after_reachable timer_armed_trace eq_refl) Ht).
Defined.

(** X7, witness: timer 1, overwritten by the second arming, survives the
    sign-out notification, the Logout button and the cleanup. *)
Lemma unstored_timer_is_never_cancelled_witness :
  refreshTimerId (after two_notifications_trace) = Some 2%positive
  /\ exists st',
       default_run (after two_notifications_trace)
         [IdTokenChanged None; LogoutClicked; Unmounted] = Some st'
       /\ timers st' !! 1%positive = Some (mkTimer 3300000 1%nat).
Proof.
  split; [vm_compute; reflexivity|].
  destruct (default_run (after two_notifications_trace)
              [IdTokenChanged None; LogoutClicked; Unmounted])
    as [st'|] eqn:Hrun; [|vm_compute in Hrun; discriminate].
  exists st'. split; [reflexivity|].
  apply (unstored_timer_is_never_cancelled
           (securitySchemeName DEFAULT_OPTIONS) (refreshBeforeExpiryMs DEFAULT_OPTIONS)
           sample_decode sample_ToNumber
           [IdTokenChanged None; LogoutClicked; Unmounted]
           (after two_notifications_trace) st' 1%positive (mkTimer 3300000 1%nat)).
  - apply after_reachable. vm_compute. reflexivity.
  - exact Hrun.
  - vm_compute. reflexivity.
  - vm_compute. discriminate.
  - intros [H|[H|[H|[]]]]; discriminate.
Defined.


(** X10, witness: sign-in on the freshly loaded page. *)
Lemma sign_in_notification_projects_token_and_arms_witness :
  exists st1 st2,
    default_step initial (IdTokenChanged (Some 1%nat)) = Some st1
    /\ authorized st1 = ∅
    /\ default_step st1 (TokenResolved 1 token_exp_3600 0) = Some st2
    /\ authorized st2 !! "firebase" = Some (bearer_entry "firebase" token_exp_3600).
Proof.
  destruct (sign_in_notification_projects_token_and_arms
              (securitySchemeName DEFAULT_OPTIONS) (refreshBeforeExpiryMs DEFAULT_OPTIONS)
              sample_decode sample_ToNumber
              initial 1%nat token_exp_3600 0%Z eq_refl)
    as (st1 & Hstep1 & _ & Hauth1 & _ & _ & _ & st2 & Hstep2 & _ & _ & Hauth2 & _).
  exists st1, st2. auto.
Defined.

(** X11, witness: the forced refresh started by the timer fails. *)
Lemma failed_fetch_is_never_retried_witness :
  exists st',
    default_step (after timer_fired_trace) (TokenRejected 3 network_error) = Some st'
    /\ promises st' = ∅
    /\ timers st' = ∅.
Proof.
  destruct (default_step (after timer_fired_trace) (TokenRejected 3 network_error))
    as [st'|] eqn:Hstep; [|vm_compute in Hstep; discriminate].
  exists st'. split; [reflexivity|].
  destruct (failed_fetch_is_never_retried
              (securitySchemeName DEFAULT_OPTIONS) (refreshBeforeExpiryMs DEFAULT_OPTIONS)
              sample_decode sample_ToNumber
              (after timer_fired_trace) 3%positive network_error st' Hstep)
    as (Hpromises & _ & Htimers & _).
  rewrite Hpromises, Htimers. split; vm_compute; reflexivity.
Defined.

(** X12, witness: the user signs out while the handler's fetch is
    pending; the token is projected when the fetch resolves. *)
Lemma token_fetch_in_flight_outlives_end_of_session_witness :
  exists st st1 st2,
    default_step initial (IdTokenChanged (Some 1%nat)) = Some st
    /\ default_step st (IdTokenChanged None) = Some st1
    /\ authorized st1 !! "firebase" = None
    /\ default_step st1 (TokenResolved 1 token_exp_3600 0) = Some st2
    /\ authorized st2 !! "firebase" = Some (bearer_entry "firebase" token_exp_3600).
Proof.
  destruct (default_step initial (IdTokenChanged (Some 1%nat)))
    as [st|] eqn:Hstep0; [|vm_compute in Hstep0; discriminate].
  destruct (default_step st (IdTokenChanged None))
    as [st1|] eqn:Hstep1;
    [|vm_compute in Hstep0; injection Hstep0 as <-; vm_compute in Hstep1; discriminate].
  destruct (token_fetch_in_flight_outlives_end_of_session
              (securitySchemeName DEFAULT_OPTIONS) (refreshBeforeExpiryMs DEFAULT_OPTIONS)
              sample_decode sample_ToNumber
              st (IdTokenChanged None) st1 1%positive 1%nat token_exp_3600 0%Z
              eq_refl Hstep1)
    as (_ & Hcleared & st2 & Hstep2 & Hauth2 & _).
  - vm_compute in Hstep0. injection Hstep0 as <-. vm_compute. reflexivity.
  - exists st, st1, st2. repeat split; try assumption; try reflexivity.
    apply Hcleared. discriminate.
Defined.

(** X13, witness: the user clicks Logout while the arming fetch is
    pending; the timer is set when the fetch resolves. *)
Lemma arming_in_flight_outlives_end_of_session_witness :
  exists st1 st2,
    default_step (after signed_in_trace) LogoutClicked = Some st1
    /\ default_step st1 (TokenResolved 2 token_exp_3600 0) = Some st2
    /\ timers st2 !! 1%positive = Some (mkTimer 3300000 1%nat).
Proof.
  destruct (default_step (after signed_in_trace) LogoutClicked)
    as [st1|] eqn:Hstep1; [|vm_compute in Hstep1; discriminate].
  destruct (arming_in_flight_outlives_end_of_session
              (securitySchemeName DEFAULT_OPTIONS) (refreshBeforeExpiryMs DEFAULT_OPTIONS)
              sample_decode sample_ToNumber
              (after signed_in_trace) LogoutClicked st1 2%positive 1%nat
              token_exp_3600 0%Z (JObj [("exp", JNum 3600)]) 3600%Z
              eq_refl Hstep1)
    as (_ & st2 & Hstep2 & Htimer & _).
  - vm_compute. reflexivity.
  - reflexivity.
  - reflexivity.
  - discriminate.
  - reflexivity.
  - exists st1, st2. repeat split; try assumption; try reflexivity.
Defined.

(** X14, witness: the cleanup after two overlapping armings: the stored
    timer 2 is cancelled, timer 1 stays pending and the token stays
    installed. *)
Lemma cleanup_keeps_the_token_installed_witness :
  exists st1,
    default_step (after two_notifications_trace) Unmounted = Some st1
    /\ subscribed st1 = false
    /\ timers st1 !! 2%positive = None
    /\ timers st1 !! 1%positive = Some (mkTimer 3300000 1%nat)
    /\ authorized st1 !! "firebase" = Some (bearer_entry "firebase" token_exp_3600).
Proof.
  destruct (default_step (after two_notifications_trace) Unmounted)
    as [st1|] eqn:Hstep; [|vm_compute in Hstep; discriminate].
  destruct (cleanup_keeps_the_token_installed
              (securitySchemeName DEFAULT_OPTIONS) (refreshBeforeExpiryMs DEFAULT_OPTIONS)
              sample_decode sample_ToNumber
              (after two_notifications_trace) st1 Hstep)
    as (Hsub & _ & Hcancel & Hkeep & _ & Hauth & _).
  exists st1. split; [reflexivity|]. split; [exact Hsub|].
  split; [apply Hcancel; vm_compute; reflexivity|].
  split; [rewrite Hkeep; [vm_compute; reflexivity | vm_compute; discriminate]|].
  rewrite Hauth. vm_compute. reflexivity.
Defined.

(** X15, witness: the sample token, another header and signature, and a
    token without a signature decode alike. *)
Lemma parseJwt_reads_only_the_second_segment_witness :
  parseJwt_try sample_decode ("h" +:+ "." +:+ "eyJleHAiOjM2MDB9" +:+ "." +:+ "s")
  = Some (JObj [("exp", JNum 3600)])
  /\ parseJwt_try sample_decode ("h" +:+ "." +:+ "eyJleHAiOjM2MDB9")
     = Some (JObj [("exp", JNum 3600)])
  /\ parseJwt_try sample_decode "h" = None.
Proof.
  destruct (parseJwt_reads_only_the_second_segment sample_decode
              "h" "eyJleHAiOjM2MDB9" "s" eq_refl eq_refl)
    as (H1 & H2 & H3 & _).
  rewrite H1, H2, H3. repeat split.
Defined.

(** X16, witness: the expiry claim ['soon']. *)
Lemma non_numeric_expiry_refreshes_immediately_witness :
  exists st',
    step "firebase" 300000 sample_decode_text sample_ToNumber
      (after signed_in_trace) (TokenResolved 2 token_exp_text 0) = Some st'
    /\ promises st' !! 3%positive = Some (ImmediateForced 1%nat)
    /\ timers st' = ∅.
Proof.
  destruct (non_numeric_expiry_refreshes_immediately
              "firebase" 300000%Z sample_decode_text sample_ToNumber
              (after signed_in_trace) 2%positive 1%nat token_exp_text 0%Z
              (JObj [("exp", JStr "soon")]))
    as (st' & Hstep & Hpromises & Htimers & _).
  - vm_compute. reflexivity.
  - reflexivity.
  - reflexivity.
  - reflexivity.
  - exists st'. split; [exact Hstep|].
    rewrite Hpromises, Htimers. split; vm_compute; reflexivity.
Defined.

(** X17, witness: two rounds at a time when the token is inside the
    window: four more calls, no timer. *)
Lemma expiring_tokens_are_refetched_without_pause_witness :
  exists st',
    default_run (after signed_in_trace) (refresh_rounds 2 2 token_exp_3600 3400000) = Some st'
    /\ nextTimer st' = 1%positive
    /\ length (calls st') = 6%nat.
Proof.
  destruct (expiring_tokens_are_refetched_without_pause
              (securitySchemeName DEFAULT_OPTIONS) (refreshBeforeExpiryMs DEFAULT_OPTIONS)
              sample_decode sample_ToNumber
              2%nat (after signed_in_trace) 2%positive 1%nat token_exp_3600 3400000%Z
              (JObj [("exp", JNum 3600)]) 3600%Z)
    as (st' & q & Hrun & Htimer & Hcalls & _).
  - vm_compute. reflexivity.
  - vm_compute. reflexivity.
  - reflexivity.
  - reflexivity.
  - discriminate.
  - vm_compute. discriminate.
  - exists st'. split; [exact Hrun|]. rewrite Htimer, Hcalls.
    split; vm_compute; reflexivity.
Defined.

(** X18, witness: a proactive refresh on its own leaves one timer. *)
Lemma one_timer_when_armings_do_not_overlap_witness :
  arms_one_at_a_time default_step initial refresh_alone_trace = true
  /\ exists st',
       default_run initial refresh_alone_trace = Some st'
       /\ size (timers st') <= 1.
Proof.
  assert (Hseq : arms_one_at_a_time default_step initial refresh_alone_trace = true)
    by (vm_compute; reflexivity).
  split; [exact Hseq|].
  destruct (default_run initial refresh_alone_trace)
    as [st'|] eqn:Hrun; [|vm_compute in Hrun; discriminate].
  exists st'. split; [reflexivity|].
  exact (proj1 (one_timer_when_armings_do_not_overlap
                  (securitySchemeName DEFAULT_OPTIONS) (refreshBeforeExpiryMs DEFAULT_OPTIONS)
                  sample_decode sample_ToNumber refresh_alone_trace st' Hrun Hseq)).
Defined.

(** * The generated text and the Authorize button *)

Section ScriptCoverage.

Variable JSON_stringify : jsval -> string.
Variable schemeName : string.
Variable refreshBeforeMs : Z.
Variable host_decode : string -> option jsval.
Variable ToNumber : jsval -> option Z.

Local Abbreviation step_ := (step schemeName refreshBeforeMs host_decode ToNumber).


(** X20: the Authorize button follows the store.  With security
    definitions present, the button is rendered as authorized right after
    a token was projected.  The sign-out notification and the popup's
    Logout remove the entry of the configured scheme from the store and
    nothing else, and the button is then rendered as not authorized
    exactly when no other scheme holds an authorization: [isAuthorized]
    counts the entries of every scheme.  Without security definitions
    nothing is rendered. *)
Theorem authorize_button_counts_every_scheme
    (st : state) (securityDefinitions shownDefinitions : jsval) (token : string) :
  truthy securityDefinitions = true ->
  AuthorizeBtnContainer securityDefinitions shownDefinitions
    (updateSwaggerAuth schemeName token st)
  = Some (mkButton true (truthy shownDefinitions))
  /\ (forall ev st',
        step_ st ev = Some st' ->
        ev = IdTokenChanged None \/ ev = LogoutClicked ->
        authorized st' = delete schemeName (authorized st)
        /\ exists authorized_now,
             AuthorizeBtnContainer securityDefinitions shownDefinitions st'
             = Some (mkButton authorized_now (truthy shownDefinitions))
             /\ (authorized_now = false
                 <-> forall other, other <> schemeName -> authorized st !! other = None))
  /\ AuthorizeBtnContainer JUndefined shownDefinitions st = None.
Proof.
  intros Hdefs. unfold AuthorizeBtnContainer. rewrite Hdefs.
  split; [|split; [|reflexivity]].
  - rewrite updateSwaggerAuth_authorized.
    rewrite map_size_insert_None by apply lookup_delete_eq. reflexivity.
  - intros ev st' Hstep Hev.
    assert (Hstore : authorized st' = delete schemeName (authorized st)).
    { destruct Hev as [-> | ->]; simpl in Hstep.
      - destruct (subscribed st); [|discriminate]. injection Hstep as <-. simpl.
        destruct (clearRefreshTimer_cancels_stored_handle st) as (_ & _ & _ & _ & ->).
        reflexivity.
      - injection Hstep as <-. unfold logout. simpl.
        destruct (clearRefreshTimer_cancels_stored_handle st) as (_ & _ & _ & _ & ->).
        reflexivity. }
    split; [exact Hstore|].
    eexists. split; [reflexivity|].
    rewrite Hstore. rewrite negb_false_iff, Nat.eqb_eq, map_size_empty_iff, map_empty.
    split.
    + intros Hnone other Hne. rewrite <- (Hnone other).
      symmetry. apply lookup_delete_ne. congruence.
    + intros Hnone k. destruct (decide (k = schemeName)) as [->|Hne].
      * apply lookup_delete_eq.
      * rewrite lookup_delete_ne by congruence. exact (Hnone k Hne).
Qed.

(** X21: two arming fetches in flight at once leave two timers.  When
    both resolve with tokens whose expiry leaves a positive delay, each
    continuation sets a timer; the second overwrites the stored handle
    without cancelling the first, so both timers are pending and only the
    second one's handle is stored. *)
Theorem overlapping_armings_leave_two_timers
    (st : state) (p q : positive) (u v : user)
    (token1 token2 : string) (now1 now2 : Z) (decoded1 decoded2 : jsval) (exp1 exp2 : Z) :
  promises st !! p = Some (ArmFetch u) ->
  promises st !! q = Some (ArmFetch v) ->
  p <> q ->
  parseJwt_try host_decode token1 = Some decoded1 ->
  get_prop decoded1 "exp" = JNum exp1 ->
  exp1 <> 0%Z ->
  (0 < exp1 * 1000 - refreshBeforeMs - now1)%Z ->
  parseJwt_try host_decode token2 = Some decoded2 ->
  get_prop decoded2 "exp" = JNum exp2 ->
  exp2 <> 0%Z ->
  (0 < exp2 * 1000 - refreshBeforeMs - now2)%Z ->
  exists st1 st2,
    step_ st (TokenResolved p token1 now1) = Some st1
    /\ step_ st1 (TokenResolved q token2 now2) = Some st2
    /\ timers st2 !! nextTimer st = Some (mkTimer (exp1 * 1000 - refreshBeforeMs - now1)%Z u)
    /\ timers st2 !! Pos.succ (nextTimer st)
       = Some (mkTimer (exp2 * 1000 - refreshBeforeMs - now2)%Z v)
    /\ refreshTimerId st2 = Some (Pos.succ (nextTimer st)).
Proof.
  intros Hp Hq Hne Htry1 Hexp1 Hnz1 Hpos1 Htry2 Hexp2 Hnz2 Hpos2.
  eexists. eexists.
  split; [exact (arming_then_schedules _ _ _ _ st p u token1 now1 decoded1 exp1
                   Hp Htry1 Hexp1 Hnz1 Hpos1)|].
  split.
  - apply (arming_then_schedules _ _ _ _ _ q v token2 now2 decoded2 exp2);
      try assumption.
    simpl. rewrite lookup_delete_ne by exact Hne. exact Hq.
  - simpl. split; [|split; [apply lookup_insert_eq | reflexivity]].
    rewrite lookup_insert_ne by lia.
    apply lookup_insert_eq.
Qed.

End ScriptCoverage.


(** X20, witness: after the sign-out that follows a sign-in the button
    is not authorized; after Logout on a page whose store holds an entry
    of the scheme [basic] it is. *)
Lemma authorize_button_counts_every_scheme_witness :
  AuthorizeBtnContainer (JObj []) JUndefined
    (updateSwaggerAuth "firebase" token_exp_3600 (after signed_in_trace))
  = Some (mkButton true false)
  /\ (exists st',
        default_step (after signed_in_trace) (IdTokenChanged None) = Some st'
        /\ AuthorizeBtnContainer (JObj []) JUndefined st' = Some (mkButton false false))
  /\ (exists st',
        default_step other_scheme_state LogoutClicked = Some st'
        /\ AuthorizeBtnContainer (JObj []) JUndefined st' = Some (mkButton true false)).
Proof.
  destruct (authorize_button_counts_every_scheme
              (securitySchemeName DEFAULT_OPTIONS) (refreshBeforeExpiryMs DEFAULT_OPTIONS)
              sample_decode sample_ToNumber
              (after signed_in_trace) (JObj []) JUndefined token_exp_3600 eq_refl)
    as (Hset & Hclear & _).
  destruct (authorize_button_counts_every_scheme
              (securitySchemeName DEFAULT_OPTIONS) (refreshBeforeExpiryMs DEFAULT_OPTIONS)
              sample_decode sample_ToNumber
              other_scheme_state (JObj []) JUndefined token_exp_3600 eq_refl)
    as (_ & Hother & _).
  split; [exact Hset|]. split.
  - destruct (default_step (after signed_in_trace) (IdTokenChanged None))
      as [st'|] eqn:Hstep; [|vm_compute in Hstep; discriminate].
    exists st'. split; [reflexivity|].
    destruct (Hclear (IdTokenChanged None) st' Hstep (or_introl eq_refl))
      as (_ & b & Hbutton & Hiff).
    rewrite Hbutton. replace b with false; [reflexivity|].
    symmetry. apply Hiff. intros other Hne.
    assert (Hstore : authorized (after signed_in_trace)
                     = {[ "firebase" := bearer_entry "firebase" token_exp_3600 ]})
      by (vm_compute; reflexivity).
    rewrite Hstore. apply lookup_singleton_ne. simpl in Hne. congruence.
  - destruct (default_step other_scheme_state LogoutClicked)
      as [st'|] eqn:Hstep; [|vm_compute in Hstep; discriminate].
    exists st'. split; [reflexivity|].
    destruct (Hother LogoutClicked st' Hstep (or_intror eq_refl))
      as (_ & b & Hbutton & Hiff).
    rewrite Hbutton. destruct b; [reflexivity|].
    assert (Hnone : authorized other_scheme_state !! "basic" = None)
      by (apply (proj1 Hiff eq_refl); discriminate).
    vm_compute in Hnone. discriminate.
Defined.

(** X21, witness: two notifications in a row; both arming fetches
    (promises 3 and 4) resolve. *)
Lemma overlapping_armings_leave_two_timers_witness :
  exists st1 st2,
    default_step
      (after [IdTokenChanged (Some 1%nat); IdTokenChanged (Some 1%nat);
              TokenResolved 1 token_exp_3600 0; TokenResolved 2 token_exp_3600 0])
      (TokenResolved 3 token_exp_3600 0) = Some st1
    /\ default_step st1 (TokenResolved 4 token_exp_3600 0) = Some st2
    /\ timers st2 !! 1%positive = Some (mkTimer 3300000 1%nat)
    /\ timers st2 !! 2%positive = Some (mkTimer 3300000 1%nat)
    /\ refreshTimerId st2 = Some 2%positive.
Proof.
  destruct (overlapping_armings_leave_two_timers
              (securitySchemeName DEFAULT_OPTIONS) (refreshBeforeExpiryMs DEFAULT_OPTIONS)
              sample_decode sample_ToNumber
              (after [IdTokenChanged (Some 1%nat); IdTokenChanged (Some 1%nat);
                      TokenResolved 1 token_exp_3600 0; TokenResolved 2 token_exp_3600 0])
              3%positive 4%positive 1%nat 1%nat token_exp_3600 token_exp_3600 0%Z 0%Z
              (JObj [("exp", JNum 3600)]) (JObj [("exp", JNum 3600)]) 3600%Z 3600%Z)
    as (st1 & st2 & Hstep1 & Hstep2 & Ht1 & Ht2 & Hid).
  - vm_compute. reflexivity.
  - vm_compute. reflexivity.
  - discriminate.
  - reflexivity.
  - reflexivity.
  - discriminate.
  - reflexivity.
  - reflexivity.
  - reflexivity.
  - discriminate.
  - reflexivity.
  - exists st1, st2. auto.
Defined.
